(** * smirror: rule-set loader, cron coordinator and event entry point

    A shallow embedding of the Go sources of smirror:

    - [Config]: package [config], type [Resources] (rule-set loader with
      reload-if-changed), from the second unit of [src/unnamed/part_000];
    - [Cron]: package [cron], the proxy based service with its worker pool
      ([src/unnamed/part_001]);
    - [CronTrigger]: package [cron], the trigger based service
      ([src/unnamed/part_002]);
    - [Mirror]: package [mirror], the event entry point [Fn] ([src/fn.go]);
    - [CronStart]: [Init] and [New] of the proxy based service
      ([src/unnamed/part_001]);
    - [CronLegacy]: [tick], [reportMatched] and [Tick] of the first cron
      service (third unit of [src/unnamed/part_000]);
    - [TriggerTick], [TriggerStart]: [tick], [Tick] and [New] of the trigger
      based service ([src/unnamed/part_002]);
    - [Job]: package [job], [Actions.Run] (second unit of [src/fn.go]);
    - [Contract]: package [contract], the response of a mirroring (first
      unit of [src/unnamed/part_000]).

    The definitions come first, then concrete collaborators ([Fixtures]),
    then the properties with their instances at concrete inputs
    ([Examples]), and then further properties with theirs
    ([MoreExamples]).

    Go values are modelled as follows.  An [error] is its message, a nil
    error is [None].  A slice of pointers is a list of locations into a
    store; the store is a list indexed by location, and allocation appends
    to it.  The storage facade [afs.Service], the secret facade, the ledger
    and the proxy are collaborators whose code is not part of the sources:
    they are parameters of the development. *)

From stdpp Require Import base list strings gmap pretty.
From Stdlib Require Import ZArith Lia.

Local Open Scope Z_scope.

(** ** Errors and results *)

Definition error := string.

Inductive result (A : Type) : Type :=
| Ok (a : A)
| Err (e : error).

Arguments Ok {A} a.
Arguments Err {A} e.

(** [errors.Wrap(err, msg)] and [errors.Wrapf(err, format, ...)] of
    github.com/pkg/errors: the message of the wrapped error is the message
    given, a colon and a blank, and the message of the cause. *)
Definition Wrap (err : error) (message : string) : error :=
  message +:+ ": " +:+ err.

(** ** Storage facade (package afs) *)

(** [storage.Object]: what the sources read of it. *)
Record Object := mkObject {
  URL : string;
  IsDir : bool;
  ModTime : Z;
  Size : Z
}.

(** [storage.Option] values the sources build or pass on. *)
Inductive StorageOption : Type :=
| BasicMatcher (prefix suffix filter : string)
| ModificationMatcher (before after : option Z)
| Credentials (ref : string).

(** [afs.Service] as the sources use it: [Exists], [List] and [Download]
    (the reader is modelled by the content it yields). *)
Record Fs := mkFs {
  Exists : string -> bool * option error;
  List : string -> list StorageOption -> result (list Object);
  Download : Object -> result string
}.

(** Locations and the store the pointers of a slice point into. *)
Abbreviation loc := nat (only parsing).

(** The rule type of a rule set, as [Resources] uses it: the method
    [Init(projectID)] of a rule and the JSON decoding of a rule file,
    [json.NewDecoder(reader).Decode(&resources)].  Both are declared
    outside the sources. *)
Class RuleOps (Resource : Type) := {
  ResourceInit : string -> Resource -> Resource;
  Decode : string -> result (list Resource)
}.

(** The metadata watcher [base.Meta]: [base.NewMeta] and the method
    [HasChanged], which answers and updates the watcher's cache. *)
Class MetaOps (Meta : Type) := {
  NewMeta : string -> Z -> Meta;
  HasChanged : Meta -> Fs -> bool * option error * Meta
}.

Module Config.

Section Resources.

Context {Resource Meta : Type} `{!RuleOps Resource} `{!MetaOps Meta}.

Record Resources := mkResources {
  BaseURL : string;
  CheckInMs : Z;
  Rules : list loc;
  initialRules : list loc;
  inited : Z;
  projectID : string;
  meta : Meta
}.

Local Abbreviation Heap := (list Resource) (only parsing).

Definition withRules (rules : list loc) (r : Resources) : Resources :=
  mkResources (BaseURL r) (CheckInMs r) rules (initialRules r) (inited r)
    (projectID r) (meta r).

Definition withInitialRules (rules : list loc) (r : Resources) : Resources :=
  mkResources (BaseURL r) (CheckInMs r) (Rules r) rules (inited r)
    (projectID r) (meta r).

Definition withInited (v : Z) (r : Resources) : Resources :=
  mkResources (BaseURL r) (CheckInMs r) (Rules r) (initialRules r) v
    (projectID r) (meta r).

Definition withProjectID (id : string) (r : Resources) : Resources :=
  mkResources (BaseURL r) (CheckInMs r) (Rules r) (initialRules r) (inited r)
    id (meta r).

Definition withMeta (m : Meta) (r : Resources) : Resources :=
  mkResources (BaseURL r) (CheckInMs r) (Rules r) (initialRules r) (inited r)
    (projectID r) m.

(** [time.Duration(r.CheckInMs) * time.Millisecond]: a product of int64
    values, which wraps around. *)
Definition wrap64 (z : Z) : Z := (z + 2 ^ 63) mod 2 ^ 64 - 2 ^ 63.

Definition Millisecond : Z := 1000000.

(** [initRules]: the compare-and-swap on [inited] lets the body run once. *)
Definition initRules (r : Resources) : Resources :=
  if bool_decide (inited r = 0) then
    let r := withInited 1 r in
    if bool_decide (0 < length (Rules r))%nat
    then withInitialRules (Rules r) r
    else withInitialRules [] r
  else r.

(** [loadResources]: download and decode one rule file; the decoded rules
    are fresh objects, appended to [Rules]. *)
Definition loadResources (storage : Fs) (object : Object)
    (r : Resources) (h : Heap) : Resources * Heap * option error :=
  match Download storage object with
  | Err err => (r, h, Some err)
  | Ok reader =>
      match Decode reader with
      | Err err =>
          (r, h, Some (Wrap err ("failed to decode: " +:+ URL object)))
      | Ok resources =>
          (withRules (Rules r ++ seq (length h) (length resources)) r,
           h ++ resources, None)
      end
  end.

(** The [for _, object := range routesObject] loop of [loadAllResources]. *)
Fixpoint loadAllResources_range (fs : Fs) (routesObject : list Object)
    (r : Resources) (h : Heap) : Resources * Heap * option error :=
  match routesObject with
  | [] => (r, h, None)
  | object :: rest =>
      if IsDir object then loadAllResources_range fs rest r h
      else
        match loadResources fs object r h with
        | (r', h', Some err) => (r', h', Some err)
        | (r', h', None) => loadAllResources_range fs rest r' h'
        end
  end.

(** [matcher.NewBasic("", ".json", "", nil)]. *)
Definition suffixMatcher : StorageOption := BasicMatcher "" ".json" "".

(** [loadAllResources].  [r.Rules = r.initialRules] makes the two slices
    share their elements; the appends of [loadResources] that follow leave
    the length of [initialRules], and so what it holds, as it was. *)
Definition loadAllResources (fs : Fs) (r : Resources) (h : Heap)
    : Resources * Heap * option error :=
  if bool_decide (BaseURL r = "") then (r, h, None)
  else
    let r := withRules (initialRules r) r in
    match Exists fs (BaseURL r) with
    | (_, Some err) => (r, h, Some err)
    | (false, None) => (r, h, None)
    | (true, None) =>
        match List fs (BaseURL r) [suffixMatcher] with
        | Err err => (r, h, Some err)
        | Ok routesObject => loadAllResources_range fs routesObject r h
        end
    end.

(** The [for i := range r.Rules] loop of [loadAndInit]: [Init] runs on the
    object each pointer of [Rules] points to. *)
Definition initAll (id : string) (rules : list loc) (h : Heap) : Heap :=
  foldl (fun h l => alter (ResourceInit id) l h) h rules.

Definition loadAndInit (fs : Fs) (r : Resources) (h : Heap)
    : Resources * Heap * option error :=
  match loadAllResources fs r h with
  | (r', h', Some err) => (r', h', Some err)
  | (r', h', None) => (r', initAll (projectID r') (Rules r') h', None)
  end.

Definition ReloadIfNeeded (fs : Fs) (r : Resources) (h : Heap)
    : Resources * Heap * (bool * option error) :=
  let '(changed, err, m) := HasChanged (meta r) fs in
  let r := withMeta m r in
  if bool_decide (err ≠ None) || negb changed then (r, h, (changed, err))
  else
    let '(r', h', err') := loadAndInit fs r h in
    (r', h', (true, err')).

(** The spec's words for the load policy: the concatenation of the arrays
    the rule files of a listing decode to, in the order of the listing
    ([None] when a file does not download or decode). *)
Fixpoint decodedRules (fs : Fs) (objects : list Object)
    : option (list Resource) :=
  match objects with
  | [] => Some []
  | object :: rest =>
      if IsDir object then decodedRules fs rest
      else
        match Download fs object with
        | Err _ => None
        | Ok reader =>
            match Decode reader with
            | Err _ => None
            | Ok resources =>
                match decodedRules fs rest with
                | None => None
                | Some more => Some (resources ++ more)
                end
            end
        end
  end.



Definition Init (fs : Fs) (id : string) (r : Resources) (h : Heap)
    : Resources * Heap * option error :=
  let r := initRules r in
  let r := withProjectID id r in
  let r :=
    withMeta (NewMeta (BaseURL r) (wrap64 (wrap64 (CheckInMs r) * Millisecond))) r in
  loadAndInit fs r h.

End Resources.

Arguments Resources : clear implicits.

(** The store of the rules of type [R]. *)
Abbreviation Heap R := (list R) (only parsing).

End Config.

(** ** Package [smirror/config] as the cron service uses it *)

Module cfg.

(** Modelled from the spec: the filter of a resource (prefix, suffix and an
    optional regular expression), [matcher.Basic] in the sources. *)
Record Basic := mkBasic {
  Prefix : string;
  Suffix : string;
  Filter : string
}.

(** Modelled from the spec: a resource identifies a storage location by
    its URL, a credentials reference and a filter.  The type [Resource]
    of package [smirror/config] is declared outside the sources. *)
Record Resource := mkResource {
  URL : string;
  Credentials : string;
  Basic_ : Basic
}.

Definition CloneWithURL (r : Resource) (url : string) : Resource :=
  mkResource url (Credentials r) (Basic_ r).

End cfg.

(** ** Package [proxy] *)

Module proxy.

Record Request := mkRequest {
  Source : cfg.Resource;
  Dest : cfg.Resource;
  Move : bool;
  Stream : bool
}.

Record Response := mkResponse {
  Error : string;
  Moved : gmap string string;
  Copied : gmap string string;
  Invoked : gmap string string
}.

End proxy.

(** ** What a tick leaves behind *)

(** The calls a tick makes to its collaborators, and the goroutines it
    starts ([EvGo]) and sees finish ([EvDone]), in the order they happen. *)
Inductive Event : Type :=
| EvConfigInit
| EvSecretInit (resources : list cfg.Resource)
| EvStorageOpts (resource : cfg.Resource)
| EvPending (objects : list Object)
| EvGo
| EvNotify (object : Object) (err : option error)
| EvDone
| EvAddProcessed (objects : list Object) (err : option error).

(** The collaborators of the cron service over a world [W]: the storage
    facade ([s.fs], as the world shows it), the clock, the secret facade
    ([secret.Service]), the ledger ([meta.Service]), the matcher and URL
    helpers of afs, and the scheduler, which decides in which order the
    notifications of one batch complete. *)
Class Collaborators (W : Type) := {
  storage : W -> Fs;
  Now : W -> Z;
  StorageOpts : W -> cfg.Resource -> result (list StorageOption);
  secret_Init : W -> list cfg.Resource -> W * option error;
  PendingResources : W -> list Object -> result (list Object);
  AddProcessed : W -> list Object -> W * option error;
  Match : cfg.Basic -> string -> Object -> bool;
  url_Base : string -> string -> string * string;
  path_Split : string -> string * string;
  completion : W -> list Object -> list Object
}.

(** Modelled from the spec: the status of a response is ok or error
    ([base.StatusOK] and [base.StatusError] in the sources). *)
Definition StatusOK : string := "ok".
Definition StatusError : string := "error".

(** The receive loop at the end of [notifyAll]: the errors are taken off
    the channel in the order they were sent, up to the first that is not
    nil. *)
Fixpoint receive (errorChannel : list (option error)) : option error :=
  match errorChannel with
  | [] => None
  | Some err :: _ => Some err
  | None :: rest => receive rest
  end.

(** Calls of [AddProcessed], and notifications that returned an error. *)
Definition isAddProcessed (ev : Event) : bool :=
  match ev with
  | EvAddProcessed _ _ => true
  | _ => false
  end.

Definition failedNotify (ev : Event) : bool :=
  match ev with
  | EvNotify _ (Some _) => true
  | _ => false
  end.


(** The goroutines running after the events, given [n] running before,
    and the largest number running at any point. *)
Fixpoint running (n : nat) (events : list Event) : nat :=
  match events with
  | [] => n
  | EvGo :: rest => running (S n) rest
  | EvDone :: rest => running (Nat.pred n) rest
  | _ :: rest => running n rest
  end.

Fixpoint peak (n : nat) (events : list Event) : nat :=
  match events with
  | [] => n
  | EvGo :: rest => Nat.max n (peak (S n) rest)
  | EvDone :: rest => Nat.max n (peak (Nat.pred n) rest)
  | _ :: rest => peak n rest
  end.

(** The goroutines started by the events. *)
Definition isGo (ev : Event) : bool :=
  match ev with
  | EvGo => true
  | _ => false
  end.

Definition started (events : list Event) : nat :=
  length (List.filter isGo events).

(** [file.Scheme]. *)
Definition file_Scheme : string := "file".

(** ** The cron service with a worker pool ([src/unnamed/part_001]) *)

Module Cron.

Definition Limit : nat := 50.

(** Modelled from the spec: a rule has a source resource, a destination
    resource and a move flag ([config.Rule] of package [smirror/cron/config],
    of which the service reads [Source], [Dest] and [Move]). *)
Record Rule := mkRule {
  Source : cfg.Resource;
  Dest : cfg.Resource;
  Move : bool
}.

(** Modelled from the spec: one entry of the response's [matched] list, a
    rule and the URLs of the objects processed for it. *)
Record Matched := mkMatched {
  Resource : Rule;
  URLs : list string
}.

(** Modelled from the spec: the response of a tick, with the status, the
    error, the matched entries and the moved, copied and invoked maps of
    the proxy response it embeds. *)
Record Response := mkResponse {
  Status : string;
  Error : string;
  Matched_ : list Matched;
  Moved : gmap string string;
  Copied : gmap string string;
  Invoked : gmap string string
}.

(** [proxy.Service]. *)
Class ProxyService (W : Type) := {
  Proxy : W -> proxy.Request -> W * proxy.Response
}.

(** [Config] of package [cron]: the fields the service reads. *)
Record Config (Meta : Type) := mkConfig {
  SourceScheme : string;
  MetaURL : string;
  TimeWindow : Z;
  Resources : Config.Resources Meta
}.

Arguments mkConfig {Meta}.
Arguments SourceScheme {Meta}.
Arguments MetaURL {Meta}.
Arguments TimeWindow {Meta}.
Arguments Resources {Meta}.

(** The service [s] with what its pointers reach: the configuration, the
    secret facade (nil or not), the store of the rules, the world of the
    collaborators, the calls made so far and the response of the tick. *)
Record State (W Meta : Type) := mkState {
  config : Config Meta;
  secret : bool;
  heap : Config.Heap Rule;
  world : W;
  log : list Event;
  response : Response
}.

Arguments mkState {W Meta}.
Arguments config {W Meta}.
Arguments secret {W Meta}.
Arguments heap {W Meta}.
Arguments world {W Meta}.
Arguments log {W Meta}.
Arguments response {W Meta}.

Section Service.

Context {W Meta : Type}.
Context `{!Collaborators W} `{!ProxyService W} `{!RuleOps Rule} `{!MetaOps Meta}.

Definition withResources (r : Config.Resources Meta) (h : Config.Heap Rule)
    (st : State W Meta) : State W Meta :=
  mkState
    (mkConfig (SourceScheme (config st)) (MetaURL (config st))
       (TimeWindow (config st)) r)
    (secret st) h (world st) (log st) (response st).

Definition withWorld (w : W) (st : State W Meta) : State W Meta :=
  mkState (config st) (secret st) (heap st) w (log st) (response st).

Definition withResponse (resp : Response) (st : State W Meta) : State W Meta :=
  mkState (config st) (secret st) (heap st) (world st) (log st) resp.

Definition emit (events : list Event) (st : State W Meta) : State W Meta :=
  mkState (config st) (secret st) (heap st) (world st) (log st ++ events)
    (response st).

(** The rules the pointers of [s.config.Resources.Rules] point to. *)
Definition rulesOf (st : State W Meta) : list Rule :=
  omap (fun l : loc => heap st !! l) (Config.Rules (Resources (config st))).

(** Modelled from the spec: [add_moved], [add_copied] and [add_invoked] of
    the response aggregator record one entry of the map. *)
Definition AddMoved (k v : string) (r : Response) : Response :=
  mkResponse (Status r) (Error r) (Matched_ r) (<[k:=v]> (Moved r))
    (Copied r) (Invoked r).

Definition AddCopied (k v : string) (r : Response) : Response :=
  mkResponse (Status r) (Error r) (Matched_ r) (Moved r)
    (<[k:=v]> (Copied r)) (Invoked r).

Definition AddInvoked (k v : string) (r : Response) : Response :=
  mkResponse (Status r) (Error r) (Matched_ r) (Moved r) (Copied r)
    (<[k:=v]> (Invoked r)).

(** Modelled from the spec: a new response has status ok and nothing
    recorded ([NewResponse(proxy.NewResponse())]). *)
Definition NewResponse : Response :=
  mkResponse StatusOK "" [] ∅ ∅ ∅.

Definition UpdateSecrets (st : State W Meta) : State W Meta * option error :=
  if secret st then
    let resources :=
      flat_map (fun rule => [Source rule; Dest rule]) (rulesOf st) in
    let '(w, err) := secret_Init (world st) resources in
    (emit [EvSecretInit resources] (withWorld w st), err)
  else (st, None).

Definition addLastModifiedTimeMatcher (st : State W Meta)
    (options : list StorageOption) : list StorageOption :=
  let afterTime := Now (world st) - TimeWindow (config st) in
  options ++ [ModificationMatcher None (Some afterTime)].

(** The [for i := range objects] loop of [appendResources]; [recurse] is
    the call of [appendResources] on a directory. *)
Fixpoint appendResources_range
    (recurse : string -> list Object -> option (list Object * option error))
    (filter : cfg.Basic) (objects : list Object) (i : nat)
    (result : list Object) : option (list Object * option error) :=
  match objects with
  | [] => Some (result, None)
  | object :: rest =>
      if Nat.eqb i 0 && IsDir object then
        appendResources_range recurse filter rest (S i) result
      else if IsDir object then
        match recurse (URL object) result with
        | None => None
        | Some (result', Some err) => Some (result', Some err)
        | Some (result', None) =>
            appendResources_range recurse filter rest (S i) result'
        end
      else
        let '(_, URLPath) := url_Base (URL object) file_Scheme in
        let '(parent, _) := path_Split URLPath in
        if Match filter parent object
        then appendResources_range recurse filter rest (S i) (result ++ [object])
        else appendResources_range recurse filter rest (S i) result
  end.


(** [appendResources]: the recursion follows the listings of the store and
    has no bound in the source; [fuel] bounds its depth here, and [None]
    stands for a walk that needs more. *)
Fixpoint appendResources (fuel : nat) (fs : Fs) (URL : string)
    (result : list Object) (filter : cfg.Basic)
    (options : list StorageOption) : option (list Object * option error) :=
  match fuel with
  | O => None
  | S fuel' =>
      match List fs URL options with
      | Err err => Some (result, Some err)
      | Ok objects =>
          appendResources_range
            (fun URL' result' =>
               appendResources fuel' fs URL' result' filter options)
            filter objects 0 result
      end
  end.

(** The filter of [appendResources] on an object that is no directory. *)
Definition matched (filter : cfg.Basic) (object : Object) : bool :=
  let '(_, URLPath) := url_Base (URL object) file_Scheme in
  let '(parent, _) := path_Split URLPath in
  Match filter parent object.

(** What the element at index [i] of a listing adds to the result, in the
    words of the specification: a directory at index 0 adds nothing, a
    directory at a later index adds what the walk below it adds ([below]),
    and any other element adds itself when the filter matches it. *)
Definition contribution (below : string -> list Object) (filter : cfg.Basic)
    (i : nat) (object : Object) : list Object :=
  if IsDir object then
    if Nat.eqb i 0 then [] else below (URL object)
  else if matched filter object then [object] else [].

Fixpoint contributions (below : string -> list Object) (filter : cfg.Basic)
    (i : nat) (objects : list Object) : list Object :=
  match objects with
  | [] => []
  | object :: rest =>
      contribution below filter i object ++
      contributions below filter (S i) rest
  end.

(** The objects a walk of depth [fuel] below [URL] adds. *)
Fixpoint walk (fuel : nat) (fs : Fs) (filter : cfg.Basic)
    (options : list StorageOption) (URL : string) : list Object :=
  match fuel with
  | O => []
  | S fuel' =>
      match List fs URL options with
      | Err _ => []
      | Ok objects =>
          contributions (walk fuel' fs filter options) filter 0 objects
      end
  end.

(** [getResourceCandidates]: [result] is read after [appendResources] has
    filled it through the pointer. *)
Definition getResourceCandidates (fuel : nat) (resource : Rule)
    (st : State W Meta) : option (State W Meta * (list Object * option error)) :=
  let st := emit [EvStorageOpts (Source resource)] st in
  match StorageOpts (world st) (Source resource) with
  | Err err => Some (st, ([], Some err))
  | Ok options =>
      let options := addLastModifiedTimeMatcher st options in
      match
        appendResources fuel (storage (world st)) (cfg.URL (Source resource))
          [] (cfg.Basic_ (Source resource)) options
      with
      | None => None
      | Some (result, err) => Some (st, (result, err))
      end
  end.

Definition notify (rule : Rule) (object : Object) (st : State W Meta)
    : State W Meta * option error :=
  let request :=
    proxy.mkRequest (cfg.CloneWithURL (Source rule) (URL object)) (Dest rule)
      (Move rule) true in
  let '(w, proxyResponse) := Proxy (world st) request in
  let st := withWorld w st in
  if bool_decide (proxy.Error proxyResponse ≠ "") then
    (emit [EvNotify object (Some (proxy.Error proxyResponse))] st,
     Some (proxy.Error proxyResponse))
  else
    let r := response st in
    let r := map_fold AddMoved r (proxy.Moved proxyResponse) in
    let r := map_fold AddCopied r (proxy.Copied proxyResponse) in
    let r := map_fold AddInvoked r (proxy.Invoked proxyResponse) in
    (emit [EvNotify object None] (withResponse r st), None).

(** The workers of [notifyAll] taking the objects off the queue: each
    notification is one step, and [queue] lists the objects in the order
    their notifications complete. *)
Fixpoint work (rule : Rule) (queue : list Object) (st : State W Meta)
    : State W Meta * list (option error) :=
  match queue with
  | [] => (st, [])
  | object :: rest =>
      let '(st, err) := notify rule object st in
      let '(st, errorChannel) := work rule rest st in
      (st, err :: errorChannel)
  end.

(** [notifyAll]: [Limit] workers are started, every object is queued, the
    queue is closed and the workers are waited for; then the errors are
    read. *)
Definition notifyAll (resource : Rule) (objects : list Object)
    (st : State W Meta) : State W Meta * option error :=
  if bool_decide (length objects = 0%nat) then (st, None)
  else
    let st := emit (replicate Limit EvGo) st in
    let '(st, errorChannel) :=
      work resource (completion (world st) objects) st in
    let st := emit (replicate Limit EvDone) st in
    (st, receive errorChannel).

Definition processResource (fuel : nat) (resource : Rule) (st : State W Meta)
    : option (State W Meta * (list Object * option error)) :=
  match getResourceCandidates fuel resource st with
  | None => None
  | Some (st, (_, Some err)) =>
      Some (st, ([], Some (Wrap err
        ("failed to get resource candidate " +:+ cfg.URL (Source resource)))))
  | Some (st, (objects, None)) =>
      let st := emit [EvPending objects] st in
      match PendingResources (world st) objects with
      | Err err =>
          Some (st, ([], Some (Wrap err
            ("failed to read pending resource " +:+ pretty (length objects)))))
      | Ok pending =>
          if bool_decide (length pending = 0%nat) then Some (st, ([], None))
          else
            match notifyAll resource pending st with
            | (st, Some err) =>
                Some (st, ([], Some (Wrap err "failed to notify all")))
            | (st, None) =>
                let '(w, err) := AddProcessed (world st) pending in
                let st := emit [EvAddProcessed pending err] (withWorld w st) in
                match err with
                | Some err =>
                    Some (st, (pending, Some (Wrap err "failed to update processed")))
                | None => Some (st, (pending, None))
                end
            end
      end
  end.

(** Modelled from the spec: [matched.Add(processed...)] records the URLs
    of the objects. *)
Definition Matched_Add (processed : list Object) (m : Matched) : Matched :=
  mkMatched (Resource m) (URLs m ++ map URL processed).

Definition appendMatched (m : Matched) (r : Response) : Response :=
  mkResponse (Status r) (Error r) (Matched_ r ++ [m]) (Moved r) (Copied r)
    (Invoked r).

(** The [for _, resource := range s.config.Resources.Rules] loop of
    [tick]. *)
Fixpoint tick_range (fuel : nat) (rules : list Rule) (st : State W Meta)
    : option (State W Meta * option error) :=
  match rules with
  | [] => Some (st, None)
  | resource :: rest =>
      match processResource fuel resource st with
      | None => None
      | Some (st, (_, Some err)) => Some (st, Some err)
      | Some (st, (processed, None)) =>
          let st :=
            if bool_decide (0 < length processed)%nat then
              let matched := Matched_Add processed (mkMatched resource []) in
              withResponse (appendMatched matched (response st)) st
            else st in
          tick_range fuel rest st
      end
  end.

(** The statements of [tick] before its loop: the reload of the rule set
    and, after a change, the update of the secrets. *)
Definition tick_reload (st : State W Meta) : State W Meta * option error :=
  let '(r, h, (changed, err)) :=
    Config.ReloadIfNeeded (storage (world st)) (Resources (config st))
      (heap st) in
  let st := withResources r h st in
  if changed && bool_decide (err = None) then UpdateSecrets st
  else (st, err).

Definition tick (fuel : nat) (st : State W Meta)
    : option (State W Meta * option error) :=
  let '(st, err) := tick_reload st in
  match err with
  | Some err => Some (st, Some err)
  | None => tick_range fuel (rulesOf st) st
  end.

Definition setError (err : error) (r : Response) : Response :=
  mkResponse StatusError err (Matched_ r) (Moved r) (Copied r) (Invoked r).

Definition Tick (fuel : nat) (st : State W Meta)
    : option (State W Meta * Response) :=
  let st := withResponse NewResponse st in
  match tick fuel st with
  | None => None
  | Some (st, Some err) =>
      let st := withResponse (setError err (response st)) st in
      Some (st, response st)
  | Some (st, None) => Some (st, response st)
  end.

End Service.

(** Events that leave no goroutine running and never have more than
    [Limit] of them running. *)
Definition pooled (events : list Event) : Prop :=
  running 0 events = 0%nat /\ (peak 0 events <= Limit)%nat.

End Cron.

(** ** The cron service with a trigger ([src/unnamed/part_002]) *)

Module CronTrigger.

(** Modelled from the spec: a rule is a resource with further directives
    ([config.Rule] embeds [cfg.Resource]; the service reads the embedded
    resource and its URL). *)
Record Rule := mkRule {
  Resource : cfg.Resource
}.

(** The trigger [s.dest]: the one [lambda.New] makes or the one [mem.New]
    makes. *)
Inductive Dest : Type :=
| LambdaTrigger
| MemTrigger.

(** [s3.Scheme] and [mem.Scheme]. *)
Definition s3_Scheme : string := "s3".
Definition mem_Scheme : string := "mem".

(** [trigger.Service] with its two constructors, [url.Scheme] and the
    method [Init] of the cron configuration, all declared outside the
    sources. *)
Class TriggerService (W Meta : Type) := {
  Trigger : Dest -> W -> Rule -> Object -> W * option error;
  lambda_New : W -> option error;
  url_Scheme : string -> string -> string;
  Config_Init :
    W -> Cron.Config Meta -> Config.Heap Rule ->
    Cron.Config Meta * Config.Heap Rule * option error
}.

Record State (W Meta : Type) := mkState {
  config : Cron.Config Meta;
  secret : bool;
  dest : option Dest;
  heap : Config.Heap Rule;
  world : W;
  log : list Event
}.

Arguments mkState {W Meta}.
Arguments config {W Meta}.
Arguments secret {W Meta}.
Arguments dest {W Meta}.
Arguments heap {W Meta}.
Arguments world {W Meta}.
Arguments log {W Meta}.

Section Service.

Context {W Meta : Type}.
Context `{!Collaborators W} `{!TriggerService W Meta}.

Definition withConfig (c : Cron.Config Meta) (h : Config.Heap Rule)
    (st : State W Meta) : State W Meta :=
  mkState c (secret st) (dest st) h (world st) (log st).

Definition withSourceScheme (scheme : string) (st : State W Meta)
    : State W Meta :=
  mkState
    (Cron.mkConfig scheme (Cron.MetaURL (config st))
       (Cron.TimeWindow (config st)) (Cron.Resources (config st)))
    (secret st) (dest st) (heap st) (world st) (log st).

Definition withDest (d : option Dest) (st : State W Meta) : State W Meta :=
  mkState (config st) (secret st) d (heap st) (world st) (log st).

Definition withWorld (w : W) (st : State W Meta) : State W Meta :=
  mkState (config st) (secret st) (dest st) (heap st) w (log st).

Definition emit (events : list Event) (st : State W Meta) : State W Meta :=
  mkState (config st) (secret st) (dest st) (heap st) (world st)
    (log st ++ events).

Definition rulesOf (st : State W Meta) : list Rule :=
  omap (fun l : loc => heap st !! l)
    (Config.Rules (Cron.Resources (config st))).

Definition UpdateSecrets (st : State W Meta) : State W Meta * option error :=
  if secret st then
    let resources := map Resource (rulesOf st) in
    let '(w, err) := secret_Init (world st) resources in
    (emit [EvSecretInit resources] (withWorld w st), err)
  else (st, None).

(** Defined in the source and called nowhere in it. *)
Definition addLastModifiedTimeMatcher (st : State W Meta)
    (options : list StorageOption) : list StorageOption :=
  let afterTime := Now (world st) - Cron.TimeWindow (config st) in
  options ++ [ModificationMatcher None (Some afterTime)].

(** The [for i := range objects] loop of [appendResources]. *)
Fixpoint appendResources_range
    (recurse : string -> list Object -> option (list Object * option error))
    (objects : list Object) (i : nat) (result : list Object)
    : option (list Object * option error) :=
  match objects with
  | [] => Some (result, None)
  | object :: rest =>
      if Nat.eqb i 0 && IsDir object then
        appendResources_range recurse rest (S i) result
      else if IsDir object then
        match recurse (URL object) result with
        | None => None
        | Some (result', Some err) => Some (result', Some err)
        | Some (result', None) =>
            appendResources_range recurse rest (S i) result'
        end
      else appendResources_range recurse rest (S i) (result ++ [object])
  end.

(** [appendResources], with [fuel] for the depth of the walk as in
    [Cron.appendResources]. *)
Fixpoint appendResources (fuel : nat) (fs : Fs) (URL : string)
    (result : list Object) (options : list StorageOption)
    : option (list Object * option error) :=
  match fuel with
  | O => None
  | S fuel' =>
      match List fs URL options with
      | Err err => Some (result, Some err)
      | Ok objects =>
          appendResources_range
            (fun URL' result' => appendResources fuel' fs URL' result' options)
            objects 0 result
      end
  end.

(** What the element at index [i] of a listing adds to the result: a
    directory at index 0 adds nothing, a directory at a later index adds
    what the walk below it adds, and any other element adds itself. *)
Definition contribution (below : string -> list Object) (i : nat)
    (object : Object) : list Object :=
  if IsDir object then
    if Nat.eqb i 0 then [] else below (URL object)
  else [object].

Fixpoint contributions (below : string -> list Object) (i : nat)
    (objects : list Object) : list Object :=
  match objects with
  | [] => []
  | object :: rest =>
      contribution below i object ++ contributions below (S i) rest
  end.

Fixpoint walk (fuel : nat) (fs : Fs) (options : list StorageOption)
    (URL : string) : list Object :=
  match fuel with
  | O => []
  | S fuel' =>
      match List fs URL options with
      | Err _ => []
      | Ok objects => contributions (walk fuel' fs options) 0 objects
      end
  end.

Definition getResourceCandidates (fuel : nat) (resource : Rule)
    (st : State W Meta) : option (State W Meta * (list Object * option error)) :=
  let st := emit [EvStorageOpts (Resource resource)] st in
  match StorageOpts (world st) (Resource resource) with
  | Err err => Some (st, ([], Some err))
  | Ok options =>
      match
        appendResources fuel (storage (world st))
          (cfg.URL (Resource resource)) [] options
      with
      | None => None
      | Some (result, err) => Some (st, (result, err))
      end
  end.

(** [notify]: a call through [s.dest]; on a nil [dest] the call does not
    return ([None]). *)
Definition notify (resource : Rule) (object : Object) (st : State W Meta)
    : option (State W Meta * option error) :=
  match dest st with
  | None => None
  | Some d =>
      let '(w, err) := Trigger d (world st) resource object in
      Some (emit [EvNotify object err; EvDone] (withWorld w st), err)
  end.

(** The goroutines of [notifyAll], one for each object, in the order
    their notifications complete. *)
Fixpoint work (resource : Rule) (queue : list Object) (st : State W Meta)
    : option (State W Meta * list (option error)) :=
  match queue with
  | [] => Some (st, [])
  | object :: rest =>
      match notify resource object st with
      | None => None
      | Some (st, err) =>
          match work resource rest st with
          | None => None
          | Some (st, errors) => Some (st, err :: errors)
          end
      end
  end.

(** [notifyAll]: one goroutine is started for each object, and the errors
    are read as they arrive.  The wait group is never waited for; the
    state returned is the one reached when every goroutine has finished. *)
Definition notifyAll (resource : Rule) (objects : list Object)
    (st : State W Meta) : option (State W Meta * option error) :=
  if bool_decide (length objects = 0%nat) then Some (st, None)
  else
    let st := emit (replicate (length objects) EvGo) st in
    match work resource (completion (world st) objects) st with
    | None => None
    | Some (st, errors) => Some (st, receive errors)
    end.

Definition processResource (fuel : nat) (resource : Rule) (st : State W Meta)
    : option (State W Meta * (list Object * option error)) :=
  match getResourceCandidates fuel resource st with
  | None => None
  | Some (st, (_, Some err)) => Some (st, ([], Some err))
  | Some (st, (objects, None)) =>
      let st := emit [EvPending objects] st in
      match PendingResources (world st) objects with
      | Err err => Some (st, ([], Some err))
      | Ok pending =>
          if bool_decide (length pending = 0%nat) then Some (st, ([], None))
          else
            match notifyAll resource pending st with
            | None => None
            | Some (st, Some err) => Some (st, ([], Some err))
            | Some (st, None) =>
                let '(w, err) := AddProcessed (world st) pending in
                Some (emit [EvAddProcessed pending err] (withWorld w st),
                      (pending, err))
            end
      end
  end.

(** [Init]: the scheme is inferred, then the [switch] selects the
    trigger; [fmt.Errorf] formats the scheme into the message. *)
Definition Init (st : State W Meta) : State W Meta * option error :=
  let st :=
    if bool_decide (Cron.SourceScheme (config st) = "")
    then withSourceScheme (url_Scheme (Cron.MetaURL (config st)) "") st
    else st in
  let scheme := Cron.SourceScheme (config st) in
  let '(st, err) :=
    if bool_decide (scheme = s3_Scheme) then
      match lambda_New (world st) with
      | Some err => (withDest None st, Some err)
      | None => (withDest (Some LambdaTrigger) st, None)
      end
    else if bool_decide (scheme = mem_Scheme) then
      (withDest (Some MemTrigger) st, None)
    else (st, Some ("unsupported source scheme: " +:+ scheme)) in
  match err with
  | Some err => (st, Some err)
  | None =>
      let '(c, h, err) := Config_Init (world st) (config st) (heap st) in
      let st := emit [EvConfigInit] (withConfig c h st) in
      match err with
      | Some err => (st, Some err)
      | None => UpdateSecrets st
      end
  end.

End Service.

End CronTrigger.

(** ** The event entry point ([src/fn.go]) *)

Module Mirror.

(** Modelled from the spec: the response of a mirroring carries a status
    and an optional error (type [Response] of package [mirror]). *)
Record Response := mkResponse {
  Status : string;
  Error : string
}.

(** Modelled from the spec: a request carries the source URL
    ([NewRequest(event.URL())]). *)
Record Request := mkRequest {
  URL : string
}.

Definition NewRequest (URL : string) : Request := mkRequest URL.

(** What [Fn] calls outside the sources: [NewFromEnv] and the method
    [Mirror] of the service it returns, and [fmt.Errorf] on a format with
    no operand. *)
Class Env (Service : Type) := {
  NewFromEnv : string -> result Service;
  Mirror : Service -> Request -> Response;
  fmt_Errorf : string -> string
}.

Definition ConfigEnvKey : string := "CONFIG".
Definition LoggingKey : string := "LOGGING".

Section Fn.

Context {Service : Type} `{!Env Service}.

(** [fn]: the output to stdout is left out. *)
Definition fn (eventURL : string) : option Response * option error :=
  match NewFromEnv ConfigEnvKey with
  | Err err => (None, Some err)
  | Ok service =>
      let response := Mirror service (NewRequest eventURL) in
      if bool_decide (Error response ≠ "")
      then (None, Some (fmt_Errorf (Error response)))
      else (Some response, None)
  end.

Definition Fn (eventURL : string) : option error :=
  let '(response, err) := fn eventURL in
  match err with
  | Some err => Some (Wrap err ("failed to mirror " +:+ eventURL))
  | None => None
  end.

End Fn.

End Mirror.

(** ** Further units of the sources *)

(** What a load of the rule set never changes. *)
Definition sameSettings {Meta : Type} (r r' : Config.Resources Meta) : Prop :=
  Config.BaseURL r' = Config.BaseURL r /\
  Config.CheckInMs r' = Config.CheckInMs r /\
  Config.initialRules r' = Config.initialRules r /\
  Config.inited r' = Config.inited r /\
  Config.projectID r' = Config.projectID r /\
  Config.meta r' = Config.meta r.

(** The objects the ledger took: the batches of the calls of
    [AddProcessed] that returned no error, in order. *)
Fixpoint ledgered (events : list Event) : list Object :=
  match events with
  | [] => []
  | EvAddProcessed objects None :: rest => objects ++ ledgered rest
  | _ :: rest => ledgered rest
  end.

(** The objects notified, in the order of the notifications. *)
Fixpoint notified (events : list Event) : list Object :=
  match events with
  | [] => []
  | EvNotify object _ :: rest => object :: notified rest
  | _ :: rest => notified rest
  end.

(** *** [Init] and [New] of the service with the worker pool
    ([src/unnamed/part_001]) *)

Module CronStart.

(** What [Init] and [New] call outside the sources: [url.Scheme], the
    method [Init] of the cron configuration, [meta.New], [secret.New], and
    [proxy.NewConfig] with [proxy.New]. *)
Class Setup (W Meta : Type) := {
  url_Scheme : string -> string -> string;
  Config_Init :
    W -> Cron.Config Meta -> Config.Heap Cron.Rule ->
    Cron.Config Meta * Config.Heap Cron.Rule * option error;
  meta_New : string -> Z -> W -> W;
  secret_New : string -> W -> W;
  proxy_New : W -> W
}.

Section Start.

Context {W Meta : Type} `{!Collaborators W} `{!Setup W Meta}.

Definition withSourceScheme (scheme : string) (st : Cron.State W Meta)
    : Cron.State W Meta :=
  Cron.mkState
    (Cron.mkConfig scheme (Cron.MetaURL (Cron.config st))
       (Cron.TimeWindow (Cron.config st)) (Cron.Resources (Cron.config st)))
    (Cron.secret st) (Cron.heap st) (Cron.world st) (Cron.log st)
    (Cron.response st).

Definition withConfig (c : Cron.Config Meta) (h : Config.Heap Cron.Rule)
    (st : Cron.State W Meta) : Cron.State W Meta :=
  Cron.mkState c (Cron.secret st) h (Cron.world st) (Cron.log st)
    (Cron.response st).

(** [Init]: the error of [proxy.NewConfig] is dropped. *)
Definition Init (st : Cron.State W Meta) : Cron.State W Meta * option error :=
  let st :=
    if bool_decide (Cron.SourceScheme (Cron.config st) = "")
    then withSourceScheme (url_Scheme (Cron.MetaURL (Cron.config st)) "") st
    else st in
  let st := Cron.withWorld (proxy_New (Cron.world st)) st in
  let '(c, h, err) :=
    Config_Init (Cron.world st) (Cron.config st) (Cron.heap st) in
  let st := Cron.emit [EvConfigInit] (withConfig c h st) in
  match err with
  | Some err => (st, Some err)
  | None => Cron.UpdateSecrets st
  end.

(** [New]: [None] is the nil service.  [config.TimeWindow.Duration * 2] is
    a product of int64 values. *)
Definition New (config : Cron.Config Meta) (h : Config.Heap Cron.Rule) (w : W)
    : option (Cron.State W Meta) * option error :=
  let '(c, h, err) := Config_Init w config h in
  match err with
  | Some err => (None, Some err)
  | None =>
      let w :=
        meta_New (Cron.MetaURL c) (Config.wrap64 (Cron.TimeWindow c * 2)) w in
      let w := secret_New (Cron.SourceScheme c) w in
      let result :=
        Cron.mkState c true h w [EvConfigInit] Cron.NewResponse in
      let '(st, err) := Init result in
      (Some st, err)
  end.

End Start.

End CronStart.

(** *** [tick], [reportMatched] and [Tick] of the first cron service
    ([src/unnamed/part_000], third unit) *)

(** The third unit of [part_000] has [processResource], [notifyAll],
    [getResourceCandidates], [appendResources] and [UpdateSecrets] word for
    word as [part_002] has them, with the rule type named [Resource]; they
    are the definitions of [CronTrigger].  Its [tick] returns the matched
    objects, and its [Tick] returns the error. *)
Module CronLegacy.

(** The character of code 34. *)
Definition quote : string := String (Ascii.ascii_of_nat 34) EmptyString.

(** [strings.Join]. *)
Fixpoint Join (elems : list string) (sep : string) : string :=
  match elems with
  | [] => ""
  | [e] => e
  | e :: rest => e +:+ sep +:+ Join rest sep
  end.

Section Service.

Context {W Meta : Type}.
Context `{!Collaborators W} `{!CronTrigger.TriggerService W Meta}.
Context `{!RuleOps CronTrigger.Rule} `{!MetaOps Meta}.

(** The loop of [tick], with [matched] as gathered so far. *)
Fixpoint tick_range (fuel : nat) (rules : list CronTrigger.Rule)
    (matched : list Object) (st : CronTrigger.State W Meta)
    : option (CronTrigger.State W Meta * (list Object * option error)) :=
  match rules with
  | [] => Some (st, (matched, None))
  | resource :: rest =>
      match CronTrigger.processResource fuel resource st with
      | None => None
      | Some (st, (_, Some err)) => Some (st, (matched, Some err))
      | Some (st, (processed, None)) =>
          let matched :=
            if bool_decide (0 < length processed)%nat
            then matched ++ processed
            else matched in
          tick_range fuel rest matched st
      end
  end.

Definition tick (fuel : nat) (st : CronTrigger.State W Meta)
    : option (CronTrigger.State W Meta * (list Object * option error)) :=
  let '(r, h, (changed, err)) :=
    Config.ReloadIfNeeded (storage (CronTrigger.world st))
      (Cron.Resources (CronTrigger.config st)) (CronTrigger.heap st) in
  let st :=
    CronTrigger.withConfig
      (Cron.mkConfig (Cron.SourceScheme (CronTrigger.config st))
         (Cron.MetaURL (CronTrigger.config st))
         (Cron.TimeWindow (CronTrigger.config st)) r) h st in
  let '(st, err) :=
    if changed && bool_decide (err = None) then CronTrigger.UpdateSecrets st
    else (st, err) in
  match err with
  | Some err => Some (st, ([], Some err))
  | None => tick_range fuel (CronTrigger.rulesOf st) [] st
  end.

(** [reportMatched]: the line printed, or [None] when logging is off
    ([base.IsLoggingEnabled], given as [logging]). *)
Definition reportMatched (logging : bool) (matched : list Object)
    (err : option error) : option string :=
  if negb logging then None
  else
    let URLs := map (fun o => quote +:+ URL o +:+ quote) matched in
    let status := if bool_decide (err ≠ None) then "error" else "ok" in
    Some ("{" +:+ quote +:+ "status" +:+ quote +:+ ":" +:+ quote +:+ status
          +:+ quote +:+ ", matched" +:+ quote +:+ ":[" +:+ Join URLs ", "
          +:+ "]}").

(** [Tick]: the state, the line printed and the error returned. *)
Definition Tick (fuel : nat) (logging : bool) (st : CronTrigger.State W Meta)
    : option (CronTrigger.State W Meta * option string * option error) :=
  match tick fuel st with
  | None => None
  | Some (st, (matched, err)) =>
      Some (st, reportMatched logging matched err, err)
  end.

End Service.

End CronLegacy.

(** *** [Tick] and [tick] of the service with the trigger
    ([src/unnamed/part_002]) *)

Module TriggerTick.

(** Modelled from the spec: one entry of the response's [matched] list, a
    rule and the URLs of the objects processed for it. *)
Record Matched := mkMatched {
  Resource : CronTrigger.Rule;
  URLs : list string
}.

(** Modelled from the spec: the response of a tick, with the status, the
    error and the matched entries. *)
Record Response := mkResponse {
  Status : string;
  Error : string;
  Matched_ : list Matched
}.

(** Modelled from the spec: a new response has status ok and nothing
    recorded. *)
Definition NewResponse : Response := mkResponse StatusOK "" [].

(** Modelled from the spec: [matched.Add(processed...)] records the URLs
    of the objects. *)
Definition Matched_Add (processed : list Object) (m : Matched) : Matched :=
  mkMatched (Resource m) (URLs m ++ map URL processed).

Section Service.

Context {W Meta : Type}.
Context `{!Collaborators W} `{!CronTrigger.TriggerService W Meta}.
Context `{!RuleOps CronTrigger.Rule} `{!MetaOps Meta}.

(** The loop of [tick]; [response] is what the pointer of the same name
    points to. *)
Fixpoint tick_range (fuel : nat) (rules : list CronTrigger.Rule)
    (response : Response) (st : CronTrigger.State W Meta)
    : option (CronTrigger.State W Meta * Response * option error) :=
  match rules with
  | [] => Some (st, response, None)
  | resource :: rest =>
      match CronTrigger.processResource fuel resource st with
      | None => None
      | Some (st, (_, Some err)) => Some (st, response, Some err)
      | Some (st, (processed, None)) =>
          let response :=
            if bool_decide (0 < length processed)%nat then
              let matched := Matched_Add processed (mkMatched resource []) in
              mkResponse (Status response) (Error response)
                (Matched_ response ++ [matched])
            else response in
          tick_range fuel rest response st
      end
  end.

Definition tick (fuel : nat) (response : Response)
    (st : CronTrigger.State W Meta)
    : option (CronTrigger.State W Meta * Response * option error) :=
  let '(r, h, (changed, err)) :=
    Config.ReloadIfNeeded (storage (CronTrigger.world st))
      (Cron.Resources (CronTrigger.config st)) (CronTrigger.heap st) in
  let st :=
    CronTrigger.withConfig
      (Cron.mkConfig (Cron.SourceScheme (CronTrigger.config st))
         (Cron.MetaURL (CronTrigger.config st))
         (Cron.TimeWindow (CronTrigger.config st)) r) h st in
  let '(st, err) :=
    if changed && bool_decide (err = None) then CronTrigger.UpdateSecrets st
    else (st, err) in
  match err with
  | Some err => Some (st, response, Some err)
  | None => tick_range fuel (CronTrigger.rulesOf st) response st
  end.

Definition Tick (fuel : nat) (st : CronTrigger.State W Meta)
    : option (CronTrigger.State W Meta * Response) :=
  match tick fuel NewResponse st with
  | None => None
  | Some (st, response, Some err) =>
      Some (st, mkResponse StatusError err (Matched_ response))
  | Some (st, response, None) => Some (st, response)
  end.

End Service.

End TriggerTick.

(** *** [New] of the service with the trigger ([src/unnamed/part_002]) *)

Module TriggerStart.

(** [meta.New] and [secret.New], declared outside the sources. *)
Class Setup (W : Type) := {
  meta_New : string -> Z -> W -> W;
  secret_New : string -> W -> W
}.

Section Start.

Context {W Meta : Type}.
Context `{!Collaborators W} `{!CronTrigger.TriggerService W Meta} `{!Setup W}.

(** The scheme [Init] goes by: the one configured or, when that is empty,
    the one of the meta URL. *)
Definition schemeOf (c : Cron.Config Meta) : string :=
  if bool_decide (Cron.SourceScheme c = "")
  then CronTrigger.url_Scheme (Cron.MetaURL c) ""
  else Cron.SourceScheme c.

(** [New]: [None] is the nil service; the service is made with no
    trigger, which [Init] is to set. *)
Definition New (config : Cron.Config Meta) (h : Config.Heap CronTrigger.Rule)
    (w : W) : option (CronTrigger.State W Meta) * option error :=
  let '(c, h, err) := CronTrigger.Config_Init w config h in
  match err with
  | Some err => (None, Some err)
  | None =>
      let w :=
        meta_New (Cron.MetaURL c) (Config.wrap64 (Cron.TimeWindow c * 2)) w in
      let w := secret_New (Cron.SourceScheme c) w in
      let result := CronTrigger.mkState c true None h w [EvConfigInit] in
      let '(st, err) := CronTrigger.Init result in
      (Some st, err)
  end.

End Start.

End TriggerStart.

(** *** Package [job] ([src/fn.go], second unit) *)

Module Job.

(** The calls [Run] makes, with what they returned. *)
Inductive Event (Action : Type) : Type :=
| EvDo (action : Action) (err : option error)
| EvWriteError (action : Action) (err : option error).

Arguments EvDo {Action}.
Arguments EvWriteError {Action}.

(** The methods [Do] and [WriteError] of an action and the field [Error]
    of the context, over a world [S] that holds the context and the
    storage; all declared outside the sources. *)
Class ActionOps (Action S : Type) := {
  contextError : S -> option error;
  Do : Action -> S -> S * option error;
  WriteError : Action -> S -> S * option error
}.

Record Actions (Action : Type) := mkActions {
  OnSuccess : list Action;
  OnFailure : list Action
}.

Arguments mkActions {Action}.
Arguments OnSuccess {Action}.
Arguments OnFailure {Action}.

Record State (Action S : Type) := mkState {
  world : S;
  trace : list (Event Action)
}.

Arguments mkState {Action S}.
Arguments world {Action S}.
Arguments trace {Action S}.

Section Run.

Context {Action S : Type} `{!ActionOps Action S}.

(** The [for _, action := range actions] loop of [Run]. *)
Fixpoint Run_range (isError : bool) (actions : list Action)
    (st : State Action S) : State Action S * option error :=
  match actions with
  | [] => (st, None)
  | action :: rest =>
      let '(s, err) := Do action (world st) in
      let st := mkState s (trace st ++ [EvDo action err]) in
      let '(st, err) :=
        if bool_decide (err = None) && isError then
          let '(s, err) := WriteError action (world st) in
          (mkState s (trace st ++ [EvWriteError action err]), err)
        else (st, err) in
      match err with
      | Some err => (st, Some err)
      | None => Run_range isError rest st
      end
  end.

Definition Run (c : Actions Action) (st : State Action S)
    : State Action S * option error :=
  let isError := bool_decide (contextError (world st) ≠ None) in
  let actions := if isError then OnFailure c else OnSuccess c in
  if bool_decide (length actions = 0%nat) then (st, None)
  else Run_range isError actions st.

(** The calls made for an action that goes through without error. *)
Definition steps (isError : bool) (action : Action) : list (Event Action) :=
  if isError then [EvDo action None; EvWriteError action None]
  else [EvDo action None].

End Run.

End Job.

(** *** Package [contract] ([src/unnamed/part_000], first unit) *)

Module Contract.

(** [Response]; the lock is kept as nil or not.  The types of [Rule] and
    [StreamOption] are declared outside the sources. *)
Record Response (Rule StreamOption : Type) := mkResponse {
  TriggeredBy : string;
  FileSize : Z;
  DestURLs : list string;
  MessageIDs : list string;
  TimeTakenMs : Z;
  Rule_ : option Rule;
  TotalRules : Z;
  Status : string;
  Error : string;
  SchemaError : string;
  NotFoundError : string;
  StartTime : Z;
  Triggered : gmap string string;
  ChecksumSkip : bool;
  StreamOption_ : option StreamOption;
  mutex : bool
}.

Arguments mkResponse {Rule StreamOption}.
Arguments TriggeredBy {Rule StreamOption}.
Arguments FileSize {Rule StreamOption}.
Arguments DestURLs {Rule StreamOption}.
Arguments MessageIDs {Rule StreamOption}.
Arguments TimeTakenMs {Rule StreamOption}.
Arguments Rule_ {Rule StreamOption}.
Arguments TotalRules {Rule StreamOption}.
Arguments Status {Rule StreamOption}.
Arguments Error {Rule StreamOption}.
Arguments SchemaError {Rule StreamOption}.
Arguments NotFoundError {Rule StreamOption}.
Arguments StartTime {Rule StreamOption}.
Arguments Triggered {Rule StreamOption}.
Arguments ChecksumSkip {Rule StreamOption}.
Arguments StreamOption_ {Rule StreamOption}.
Arguments mutex {Rule StreamOption}.

Section Response.

Context {Rule StreamOption : Type}.

(** [AddURL]: with a nil lock the call does not return ([None]). *)
Definition AddURL (r : Response Rule StreamOption) (URL : string)
    : option (Response Rule StreamOption) :=
  if mutex r then
    Some
      (mkResponse (TriggeredBy r) (FileSize r) (DestURLs r ++ [URL])
         (MessageIDs r) (TimeTakenMs r) (Rule_ r) (TotalRules r) (Status r)
         (Error r) (SchemaError r) (NotFoundError r) (StartTime r)
         (Triggered r) (ChecksumSkip r) (StreamOption_ r) (mutex r))
  else None.

(** The response [r] with [DestURLs] replaced. *)
Definition withDestURLs (URLs : list string) (r : Response Rule StreamOption)
    : Response Rule StreamOption :=
  mkResponse (TriggeredBy r) (FileSize r) URLs (MessageIDs r) (TimeTakenMs r)
    (Rule_ r) (TotalRules r) (Status r) (Error r) (SchemaError r)
    (NotFoundError r) (StartTime r) (Triggered r) (ChecksumSkip r)
    (StreamOption_ r) (mutex r).

(** [NewResponse], at the time [now]. *)
Definition NewResponse (now : Z) (triggeredBy : string)
    : Response Rule StreamOption :=
  mkResponse triggeredBy 0 [] [] 0 None 0 StatusOK "" "" "" now ∅ false None
    true.

(** Calls of [AddURL] one after the other, as the lock orders them. *)
Fixpoint AddURLs (r : Response Rule StreamOption) (URLs : list string)
    : option (Response Rule StreamOption) :=
  match URLs with
  | [] => Some r
  | URL :: rest =>
      match AddURL r URL with
      | None => None
      | Some r => AddURLs r rest
      end
  end.

End Response.

End Contract.

(** ** Stores with directories of bounded depth *)

(** The directories [appendResources] enters from [url] nest less than
    [n] deep: the listing of [url] fails, or every directory in it, the
    one at index 0 apart, nests less than [n - 1] deep. *)
Inductive nests (fs : Fs) (options : list StorageOption)
    : nat -> string -> Prop :=
| nests_unlisted n url err :
    List fs url options = Err err -> nests fs options (S n) url
| nests_listed n url objects :
    List fs url options = Ok objects ->
    (forall i object,
       objects !! i = Some object -> IsDir object = true -> i <> 0%nat ->
       nests fs options n (URL object)) ->
    nests fs options (S n) url.

(** ** Concrete collaborators, for the examples below *)

Module Fixtures.

(** Rules are named by strings: a rule file decodes to the one rule its
    content names, unless the content is not JSON. *)
#[export] Instance stringRules : RuleOps string := {
  ResourceInit id rule := rule +:+ "@" +:+ id;
  Decode content :=
    if bool_decide (content = "{") then Err "unexpected end of JSON input"
    else Ok [content]
}.

(** A watcher that caches the number of files under the base URL. *)
#[export] Instance countingMeta : MetaOps nat := {
  NewMeta _ _ := 0%nat;
  HasChanged m fs :=
    match List fs "mem://rules" [] with
    | Err err => (false, Some err, m)
    | Ok objects =>
        (negb (Nat.eqb (length objects) m), None, length objects)
    end
}.

Definition ruleFile : Object := mkObject "mem://rules/a.json" false 10 8.

(** A store with one rule file under [mem://rules], of content [content]. *)
Definition rulesStore (content : string) : Fs :=
  mkFs (fun _ => (true, None)) (fun _ _ => Ok [ruleFile])
    (fun _ => Ok content).

(** A store where [mem://rules] does not exist. *)
Definition emptyStore : Fs :=
  mkFs (fun _ => (false, None)) (fun _ _ => Ok []) (fun _ => Ok "").

Definition seedResources : Config.Resources nat :=
  Config.mkResources "mem://rules" 1000 [] [] 0 "" 0%nat.

(** The rule set after [Init] on a store whose rule file decodes. *)
Definition loaded : Config.Resources nat * Config.Heap string :=
  Eval vm_compute in
    fst (Config.Init (rulesStore "rule-a") "project" seedResources []).

(** A source with a root entry, two files and a directory with one file.
    The store honours the modification-time matcher of a listing. *)
Definition within (options : list StorageOption) (object : Object) : bool :=
  forallb
    (fun option =>
       match option with
       | ModificationMatcher before after =>
           IsDir object ||
           (match after with
            | Some a => Z.ltb a (ModTime object)
            | None => true
            end &&
            match before with
            | Some b => Z.ltb (ModTime object) b
            | None => true
            end)
       | _ => true
       end)
    options.

Definition srcRoot : Object := mkObject "mem://src" true 0 0.
Definition oldFile : Object := mkObject "mem://src/old.txt" false 10 5.
Definition subDir : Object := mkObject "mem://src/sub" true 0 0.
Definition newFile : Object := mkObject "mem://src/new.txt" false 90 5.
Definition deepFile : Object := mkObject "mem://src/sub/deep.log" false 95 5.

Definition directory (url : string) : option (list Object) :=
  if bool_decide (url = "mem://src") then
    Some [srcRoot; oldFile; subDir; newFile]
  else if bool_decide (url = "mem://src/sub") then Some [subDir; deepFile]
  else if bool_decide (url = "mem://rules") then Some []
  else None.

Definition sourceStore : Fs :=
  mkFs (fun _ => (true, None))
    (fun url options =>
       match directory url with
       | Some objects => Ok (List.filter (within options) objects)
       | None => Err ("not found: " +:+ url)
       end)
    (fun _ => Ok "").

(** The world of the examples: the time, the URLs whose notification
    fails, the URLs in the ledger, and whether the ledger can be written. *)
Record World := mkWorld {
  clock : Z;
  failing : list string;
  ledger : list string;
  ledgerDown : bool
}.

#[export] Instance testCollaborators : Collaborators World := {
  storage _ := sourceStore;
  Now w := clock w;
  StorageOpts _ resource :=
    if bool_decide (cfg.Credentials resource = "revoked")
    then Err "no credentials"
    else Ok [Credentials (cfg.Credentials resource)];
  secret_Init w _ := (w, None);
  PendingResources w objects :=
    Ok (List.filter (fun o => negb (bool_decide (URL o ∈ ledger w))) objects);
  AddProcessed w objects :=
    if ledgerDown w then (w, Some "ledger unavailable")
    else
      (mkWorld (clock w) (failing w) (ledger w ++ map URL objects) false,
       None);
  Match filter parent _ := String.prefix (cfg.Prefix filter) parent;
  url_Base url _ := ("", url);
  path_Split path := (path, "");
  completion _ objects := reverse objects
}.

#[export] Instance testProxy : Cron.ProxyService World := {
  Cron.Proxy w request :=
    let src := cfg.URL (proxy.Source request) in
    if bool_decide (src ∈ failing w)
    then (w, proxy.mkResponse ("denied " +:+ src) ∅ ∅ ∅)
    else
      (w, proxy.mkResponse "" ∅ {[ src := cfg.URL (proxy.Dest request) ]} ∅)
}.

#[export] Instance testTrigger : CronTrigger.TriggerService World nat := {
  CronTrigger.Trigger _ w _ object :=
    if bool_decide (URL object ∈ failing w)
    then (w, Some ("denied " +:+ URL object))
    else (w, None);
  CronTrigger.lambda_New _ := None;
  CronTrigger.url_Scheme url default :=
    if String.prefix "s3://" url then "s3"
    else if String.prefix "mem://" url then "mem"
    else if String.prefix "gs://" url then "gs"
    else default;
  CronTrigger.Config_Init _ c h := (c, h, None)
}.

#[export] Instance proxyRules : RuleOps Cron.Rule := {
  ResourceInit _ rule := rule;
  Decode _ := Ok []
}.

#[export] Instance triggerRules : RuleOps CronTrigger.Rule := {
  ResourceInit _ rule := rule;
  Decode _ := Ok []
}.

Definition source (prefix : string) : cfg.Resource :=
  cfg.mkResource "mem://src" "key" (cfg.mkBasic prefix "" "").

Definition destination : cfg.Resource :=
  cfg.mkResource "mem://dst" "key" (cfg.mkBasic "" "" "").

(** A rule of the proxy based service that takes every object of the
    source, and one that takes the objects of the directory [sub]. *)
Definition everything : Cron.Rule :=
  Cron.mkRule (source "") destination false.

Definition onlySub : Cron.Rule :=
  Cron.mkRule (source "mem://src/sub") destination false.

Definition triggered : CronTrigger.Rule := CronTrigger.mkRule (source "").

(** Rule sets given in the configuration, with no base URL to reload
    from. *)
Definition inlineRules (n : nat) : Config.Resources nat :=
  Config.mkResources "" 0 (seq 0 n) (seq 0 n) 1 "project" 0%nat.

(** At time 100 with a time window of 50, the window starts at 50. *)
Definition cronState (rules : list Cron.Rule) (w : World)
    : Cron.State World nat :=
  Cron.mkState (Cron.mkConfig "mem" "mem://meta" 50 (inlineRules (length rules)))
    true rules w [] Cron.NewResponse.

Definition triggerState (scheme : string) (w : World)
    : CronTrigger.State World nat :=
  CronTrigger.mkState
    (Cron.mkConfig scheme "mem://meta" 50 (inlineRules 1)) true
    (Some CronTrigger.MemTrigger) [triggered] w [].

Definition calm : World := mkWorld 100 [] [] false.

(** A world where the notification for [newFile] fails. *)
Definition flaky : World := mkWorld 100 ["mem://src/new.txt"] [] false.

(** A tick over two rules in that world: the state when [Tick] has made
    its response, and the state the first rule leaves. *)
Definition tickStart : Cron.State World nat :=
  Cron.withResponse Cron.NewResponse (cronState [everything; onlySub] flaky).

Definition afterFailure : Cron.State World nat :=
  Eval vm_compute in
    match Cron.processResource 3 everything tickStart with
    | Some (st, _) => st
    | None => tickStart
    end.

(** A service for the event entry point: the mirroring of one URL fails. *)
#[export] Instance testEnv : Mirror.Env unit := {
  Mirror.NewFromEnv key :=
    if bool_decide (key = "CONFIG") then Ok tt else Err "no configuration";
  Mirror.Mirror _ request :=
    if bool_decide (Mirror.URL request = "mem://src/locked.txt")
    then Mirror.mkResponse "error" "access denied"
    else Mirror.mkResponse "ok" "";
  Mirror.fmt_Errorf format := format
}.

(** Fifty-one objects, for a batch larger than the pool. *)
Definition batch (n : nat) : list Object :=
  map (fun i : nat => mkObject ("mem://src/" +:+ pretty i) false 90 1) (seq 0 n).

(** A start-up where the configuration initialises, unless its meta URL
    is empty. *)
#[export] Instance testSetup : CronStart.Setup World nat := {
  CronStart.url_Scheme url default :=
    if String.prefix "mem://" url then "mem" else default;
  CronStart.Config_Init _ c h :=
    if bool_decide (Cron.MetaURL c = "") then (c, h, Some "meta URL is empty")
    else (c, h, None);
  CronStart.meta_New _ _ w := w;
  CronStart.secret_New _ w := w;
  CronStart.proxy_New w := w
}.

#[export] Instance testTriggerSetup : TriggerStart.Setup World := {
  TriggerStart.meta_New _ _ w := w;
  TriggerStart.secret_New _ w := w
}.

(** Actions named by strings, over a world that holds the error of the
    context and the names of the actions that fail. *)
#[export] Instance testActions
    : Job.ActionOps string (option error * list string) := {
  Job.contextError s := s.1;
  Job.Do action s :=
    if bool_decide (action ∈ s.2) then (s, Some ("cannot " +:+ action))
    else (s, None);
  Job.WriteError _ s := (s, None)
}.

Definition jobActions : Job.Actions string :=
  Job.mkActions ["move"; "notify"] ["quarantine"; "alert"].

(** A rule set with one rule given in the configuration, before its
    first [Init] and after it on a store whose rule file decodes. *)
Definition configured : Config.Resources nat :=
  Config.mkResources "mem://rules" 1000 [0%nat] [] 0 "" 0%nat.

Definition seeded : Config.Resources nat * Config.Heap string :=
  Eval vm_compute in
    fst (Config.Init (rulesStore "rule-a") "project" configured ["seed"]).

(** A world where the ledger holds every file of the source already. *)
Definition settled : World :=
  mkWorld 100 [] ["mem://src/sub/deep.log"; "mem://src/new.txt"] false.

(** A configuration with no source scheme. *)
Definition schemeless : Cron.Config nat :=
  Cron.mkConfig "" "mem://meta" 50 (inlineRules 1).

End Fixtures.

(** * Properties *)

(** ** The rule-set loader *)

Section ConfigFacts.

Context {Resource Meta : Type} `{!RuleOps Resource} `{!MetaOps Meta}.

Implicit Types (r : Config.Resources Meta) (h : Config.Heap Resource).
Implicit Types (fs : Fs).

Lemma loadAllResources_range_decoded fs before r h more :
  Config.decodedRules fs before = Some more ->
  forall rest,
  Config.loadAllResources_range fs (before ++ rest) r h =
  Config.loadAllResources_range fs rest
    (Config.withRules (Config.Rules r ++ seq (length h) (length more)) r)
    (h ++ more).
Proof.
  revert r h more.
  induction before as [|object before IH]; intros r h more Hdec rest.
  - injection Hdec as <-. cbn. rewrite !app_nil_r. by destruct r.
  - cbn in Hdec |- *. destruct (IsDir object); [by apply IH|].
    unfold Config.loadResources.
    destruct (Download fs object) as [reader|]; [|done].
    destruct (Decode reader) as [resources|]; [|done].
    destruct (Config.decodedRules fs before) as [more'|] eqn:Hmore; [|done].
    injection Hdec as <-.
    rewrite (IH _ _ more' eq_refl). cbn.
    rewrite !length_app, seq_app, <- !app_assoc. reflexivity.
Qed.





Lemma length_initAll id rules h :
  length (Config.initAll id rules h) = length h.
Proof.
  revert h. induction rules as [|l rules IH]; intros h; [done|].
  cbn. unfold Config.initAll in IH. rewrite IH. apply length_alter.
Qed.


End ConfigFacts.

Section ConfigClaims.

Context {Resource Meta : Type} `{!RuleOps Resource} `{!MetaOps Meta}.

Implicit Types (r : Config.Resources Meta) (h : Config.Heap Resource).
Implicit Types (fs : Fs).

(** C1, as amended.  When a rule file fails to decode during a reload, the
    decode error, wrapped with the URL of the file, is returned by
    [loadAllResources] and by [loadAndInit]; [Rules] is then the seed
    [initialRules] followed by the rules decoded from the files listed
    before the failing one, not the snapshot that was active before, and
    no rule is initialised again. *)
Theorem decode_error_leaves_partial_snapshot
    fs r h before object rest decoded reader cause :
  Config.BaseURL r <> "" ->
  Exists fs (Config.BaseURL r) = (true, None) ->
  List fs (Config.BaseURL r) [Config.suffixMatcher] =
    Ok (before ++ object :: rest) ->
  Config.decodedRules fs before = Some decoded ->
  IsDir object = false ->
  Download fs object = Ok reader ->
  Decode reader = Err cause ->
  let partial :=
    Config.withRules
      (Config.initialRules r ++ seq (length h) (length decoded)) r in
  let err := Wrap cause ("failed to decode: " +:+ URL object) in
  Config.loadAllResources fs r h = (partial, h ++ decoded, Some err) /\
  Config.loadAndInit fs r h = (partial, h ++ decoded, Some err).
Proof.
  intros Hbase Hexists Hlist Hdecoded Hfile Hdownload Hdecode partial err.
  assert (Config.loadAllResources fs r h = (partial, h ++ decoded, Some err))
    as Hload.
  { unfold Config.loadAllResources.
    rewrite bool_decide_eq_false_2 by done. cbn.
    rewrite Hexists, Hlist.
    rewrite (loadAllResources_range_decoded fs before _ h decoded Hdecoded).
    cbn. rewrite Hfile. unfold Config.loadResources.
    rewrite Hdownload, Hdecode. reflexivity. }
  split; [exact Hload|].
  unfold Config.loadAndInit. by rewrite Hload.
Qed.

(** C10.  With a non-empty [BaseURL] that the store reports as missing,
    [loadAllResources] sets [Rules] to the seed [initialRules] and returns
    nil: the rules loaded before are dropped and no error is returned. *)
Theorem missing_base_resets_to_seed fs r h :
  Config.BaseURL r <> "" ->
  Exists fs (Config.BaseURL r) = (false, None) ->
  Config.loadAllResources fs r h =
    (Config.withRules (Config.initialRules r) r, h, None) /\
  Config.Rules (Config.loadAllResources fs r h).1.1 = Config.initialRules r.
Proof.
  intros Hbase Hexists. unfold Config.loadAllResources.
  rewrite bool_decide_eq_false_2 by done. cbn. by rewrite Hexists.
Qed.


(** X5.  The load policy: when every rule file of the listing downloads and
    decodes, the new snapshot is the seed followed by the decoded rules,
    in the order of the listing, and no error is returned. *)
Lemma loadAllResources_snapshot fs r h objects decoded :
  Config.BaseURL r <> "" ->
  Exists fs (Config.BaseURL r) = (true, None) ->
  List fs (Config.BaseURL r) [Config.suffixMatcher] = Ok objects ->
  Config.decodedRules fs objects = Some decoded ->
  Config.loadAllResources fs r h =
    (Config.withRules
       (Config.initialRules r ++ seq (length h) (length decoded)) r,
     h ++ decoded, None).
Proof.
  intros Hbase Hexists Hlist Hdecoded. unfold Config.loadAllResources.
  rewrite bool_decide_eq_false_2 by done. cbn. rewrite Hexists, Hlist.
  rewrite <- (app_nil_r objects).
  by rewrite (loadAllResources_range_decoded fs objects _ h decoded Hdecoded).
Qed.

End ConfigClaims.

(** ** The walk over the listings *)

Section WalkFacts.

Context {W : Type} `{!Collaborators W}.

Implicit Types (fs : Fs) (filter : cfg.Basic) (options : list StorageOption).
Implicit Types (objects result : list Object).







Lemma Cron_range_returns
    (recurse : string -> list Object -> option (list Object * option error))
    filter objects :
  forall i,
  (forall j object,
     objects !! j = Some object -> IsDir object = true -> (i + j)%nat <> 0%nat ->
     forall r, exists outcome, recurse (URL object) r = Some outcome) ->
  forall result,
  exists outcome,
    Cron.appendResources_range recurse filter objects i result = Some outcome.
Proof.
  induction objects as [|object objects IH]; intros i Hsub result; cbn;
    [by eexists|].
  assert (forall j o,
            objects !! j = Some o -> IsDir o = true -> (S i + j)%nat <> 0%nat ->
            forall r, exists outcome, recurse (URL o) r = Some outcome)
    as Hrest.
  { intros j o Hj Hdir _. apply (Hsub (S j)); [done|done|lia]. }
  destruct (IsDir object) eqn:Hdir.
  - destruct i as [|i]; cbn; [by apply IH|].
    destruct (Hsub 0%nat object eq_refl Hdir ltac:(lia) result)
      as [[result' [e|]] ->]; [by eexists|by apply IH].
  - rewrite andb_false_r.
    destruct (url_Base (URL object) file_Scheme) as [base URLPath].
    destruct (path_Split URLPath) as [parent name].
    destruct (Match filter parent object); by apply IH.
Qed.

Lemma Trigger_range_returns
    (recurse : string -> list Object -> option (list Object * option error))
    objects :
  forall i,
  (forall j object,
     objects !! j = Some object -> IsDir object = true -> (i + j)%nat <> 0%nat ->
     forall r, exists outcome, recurse (URL object) r = Some outcome) ->
  forall result,
  exists outcome,
    CronTrigger.appendResources_range recurse objects i result = Some outcome.
Proof.
  induction objects as [|object objects IH]; intros i Hsub result; cbn;
    [by eexists|].
  assert (forall j o,
            objects !! j = Some o -> IsDir o = true -> (S i + j)%nat <> 0%nat ->
            forall r, exists outcome, recurse (URL o) r = Some outcome)
    as Hrest.
  { intros j o Hj Hdir _. apply (Hsub (S j)); [done|done|lia]. }
  destruct (IsDir object) eqn:Hdir.
  - destruct i as [|i]; cbn; [by apply IH|].
    destruct (Hsub 0%nat object eq_refl Hdir ltac:(lia) result)
      as [[result' [e|]] ->]; [by eexists|by apply IH].
  - rewrite andb_false_r. by apply IH.
Qed.

(** X4.  [appendResources] returns when the fuel covers the depth to which the
    directories nest; the walk of either service needs no more. *)
Lemma appendResources_returns fs options fuel url :
  nests fs options fuel url ->
  (forall filter result,
     exists outcome,
       Cron.appendResources fuel fs url result filter options = Some outcome) /\
  (forall result,
     exists outcome,
       CronTrigger.appendResources fuel fs url result options = Some outcome).
Proof.
  induction 1 as [n url err Herr|n url objects Hobjects _ IH]; cbn.
  - rewrite Herr. split; intros; by eexists.
  - rewrite Hobjects. split.
    + intros filter result. apply Cron_range_returns.
      intros j object Hj Hdir Hindex r.
      by apply (IH j object Hj Hdir).
    + intros result. apply Trigger_range_returns.
      intros j object Hj Hdir Hindex r.
      by apply (IH j object Hj Hdir).
Qed.

End WalkFacts.

(** ** The events of a notification batch *)

Section EventFacts.

Lemma receive_None (errors : list (option error)) :
  receive errors = None <-> Forall (fun e => e = None) errors.
Proof.
  induction errors as [|[e|] errors IH]; cbn.
  - split; [constructor|done].
  - split; [done|]. intros Hall. by apply Forall_cons in Hall as [? _].
  - rewrite IH. split; [by constructor|].
    intros Hall. by apply Forall_cons in Hall as [_ ?].
Qed.


Lemma Forall_zip_with_notify (P : Event -> Prop) (queue : list Object)
    (errors : list (option error)) :
  (forall o e, P (EvNotify o e)) -> Forall P (zip_with EvNotify queue errors).
Proof.
  intros HP. revert errors.
  induction queue as [|o queue IH]; intros [|e errors]; cbn;
    try constructor; auto.
Qed.


End EventFacts.

Section ProxyBatchFacts.

Context {W Meta : Type} `{!Collaborators W} `{!Cron.ProxyService W}.

Implicit Types (st : Cron.State W Meta).

Lemma Cron_notify_log rule object st :
  Cron.log (Cron.notify rule object st).1 =
  Cron.log st ++ [EvNotify object (Cron.notify rule object st).2].
Proof.
  unfold Cron.notify. destruct (Cron.Proxy _ _) as [w proxyResponse].
  by case_bool_decide.
Qed.

Lemma Cron_work_log rule queue st :
  Cron.log (Cron.work rule queue st).1 =
    Cron.log st ++ zip_with EvNotify queue (Cron.work rule queue st).2 /\
  length (Cron.work rule queue st).2 = length queue.
Proof.
  revert st. induction queue as [|object queue IH]; intros st; cbn.
  - by rewrite app_nil_r.
  - pose proof (Cron_notify_log rule object st) as Hnotify.
    destruct (Cron.notify rule object st) as [st1 err].
    destruct (IH st1) as [Hlog Hlen].
    destruct (Cron.work rule queue st1) as [st2 errors]. cbn in *.
    rewrite Hlog, Hnotify, <- app_assoc. by rewrite Hlen.
Qed.

Lemma Cron_notifyAll_log resource objects st :
  objects <> [] ->
  exists errors,
    length errors = length (completion (Cron.world st) objects) /\
    (Cron.notifyAll resource objects st).2 = receive errors /\
    Cron.log (Cron.notifyAll resource objects st).1 =
      Cron.log st ++ replicate Cron.Limit EvGo ++
      zip_with EvNotify (completion (Cron.world st) objects) errors ++
      replicate Cron.Limit EvDone.
Proof.
  intros Hne. unfold Cron.notifyAll.
  rewrite bool_decide_eq_false_2 by (by destruct objects).
  set (st1 := Cron.emit (replicate Cron.Limit EvGo) st).
  change (Cron.world st1) with (Cron.world st).
  destruct (Cron_work_log resource (completion (Cron.world st) objects) st1)
    as [Hlog Hlen].
  destruct (Cron.work resource (completion (Cron.world st) objects) st1)
    as [st2 errors] eqn:Hwork.
  exists errors. split; [exact Hlen|]. split; [reflexivity|].
  change (Cron.log st2 ++ replicate Cron.Limit EvDone =
          Cron.log st ++ replicate Cron.Limit EvGo ++
          zip_with EvNotify (completion (Cron.world st) objects) errors ++
          replicate Cron.Limit EvDone).
  change (Cron.log st2 =
          (Cron.log st ++ replicate Cron.Limit EvGo) ++
          zip_with EvNotify (completion (Cron.world st) objects) errors)
    in Hlog.
  by rewrite Hlog, <- !app_assoc.
Qed.

Lemma Cron_candidates_log fuel resource st st' objects err :
  Cron.getResourceCandidates fuel resource st = Some (st', (objects, err)) ->
  st' = Cron.emit [EvStorageOpts (Cron.Source resource)] st.
Proof.
  unfold Cron.getResourceCandidates. cbn.
  destruct (StorageOpts _ _) as [options|]; [|by intros [= <- _ _]].
  destruct (Cron.appendResources _ _ _ _ _ _) as [[result e]|]; [|done].
  by intros [= <- _ _].
Qed.


End ProxyBatchFacts.

Section TriggerBatchFacts.

Context {W Meta : Type} `{!Collaborators W} `{!CronTrigger.TriggerService W Meta}.

Implicit Types (st : CronTrigger.State W Meta).

Lemma Trigger_work_log resource queue st st' errors :
  CronTrigger.work resource queue st = Some (st', errors) ->
  exists events,
    CronTrigger.log st' = CronTrigger.log st ++ events /\
    Forall (fun ev => isAddProcessed ev = false) events /\
    (Forall (fun e => e = None) errors ->
     Forall (fun ev => failedNotify ev = false) events /\
     forall o, o ∈ queue -> EvNotify o None ∈ events).
Proof.
  revert st st' errors.
  induction queue as [|object queue IH]; intros st st' errors; cbn.
  - intros [= <- <-]. exists []. rewrite app_nil_r.
    split_and!; [done|constructor|]. intros _. split; [constructor|].
    intros o Ho. by apply elem_of_nil in Ho.
  - unfold CronTrigger.notify. destruct (CronTrigger.dest st) as [d|]; [|done].
    destruct (CronTrigger.Trigger d _ resource object) as [w err].
    set (st1 := CronTrigger.emit _ _).
    destruct (CronTrigger.work resource queue st1) as [[st2 rest]|] eqn:Hrest;
      [|done].
    intros [= <- <-].
    destruct (IH _ _ _ Hrest) as (events & Hlog & Hcalls & Hnone).
    exists ([EvNotify object err; EvDone] ++ events).
    split; [by rewrite Hlog; unfold st1; cbn; rewrite <- !app_assoc|].
    split; [by repeat constructor|].
    intros Hall. apply Forall_cons in Hall as [-> Hall].
    destruct (Hnone Hall) as [Hfailed Hin]. split; [by repeat constructor|].
    intros o Ho. apply elem_of_cons in Ho as [->|Ho]; [by left|].
    do 2 right. by apply Hin.
Qed.

Lemma Trigger_candidates_log fuel resource st st' objects err :
  CronTrigger.getResourceCandidates fuel resource st =
    Some (st', (objects, err)) ->
  st' = CronTrigger.emit [EvStorageOpts (CronTrigger.Resource resource)] st.
Proof.
  unfold CronTrigger.getResourceCandidates. cbn.
  destruct (StorageOpts _ _) as [options|]; [|by intros [= <- _ _]].
  destruct (CronTrigger.appendResources _ _ _ _ _) as [[result e]|]; [|done].
  by intros [= <- _ _].
Qed.


End TriggerBatchFacts.

(** ** The cron coordinator *)

Section TickFacts.

Context {W Meta : Type}.
Context `{!Collaborators W} `{!Cron.ProxyService W} `{!RuleOps Cron.Rule}.
Context `{!MetaOps Meta}.

Implicit Types (st : Cron.State W Meta).

Lemma tick_range_app fuel before rest st st1 :
  Cron.tick_range fuel before st = Some (st1, None) ->
  Cron.tick_range fuel (before ++ rest) st = Cron.tick_range fuel rest st1.
Proof.
  revert st. induction before as [|resource before IH]; intros st; cbn.
  - by intros [= <-].
  - destruct (Cron.processResource fuel resource st)
      as [[st2 [processed [e|]]]|]; try done.
    apply IH.
Qed.

End TickFacts.

Section CronClaims.

Context {W Meta : Type}.
Context `{!Collaborators W} `{!Cron.ProxyService W} `{!RuleOps Cron.Rule}.
Context `{!MetaOps Meta} `{!CronTrigger.TriggerService W Meta}.


(** C5.  The first error of a tick ends it.  When the reload of the rule
    set fails, when the update of the secrets after a change fails, and
    when the processing of a rule fails after the rules before it were
    processed without error, [Tick] returns at once: the state it leaves
    is the one the failing step left, with the response marked, so no
    later rule is processed; and the response has the status error and
    the message of that error. *)
Theorem first_error_aborts_tick fuel (st : Cron.State W Meta) :
  let st0 := Cron.withResponse Cron.NewResponse st in
  let reload :=
    Config.ReloadIfNeeded (storage (Cron.world st0))
      (Cron.Resources (Cron.config st0)) (Cron.heap st0) in
  (forall r h changed e,
     reload = (r, h, (changed, Some e)) ->
     exists resp,
       Cron.Tick fuel st =
         Some (Cron.withResponse resp (Cron.withResources r h st0), resp) /\
       Cron.Status resp = StatusError /\ Cron.Error resp = e) /\
  (forall r h st1 e,
     reload = (r, h, (true, None)) ->
     Cron.UpdateSecrets (Cron.withResources r h st0) = (st1, Some e) ->
     exists resp,
       Cron.Tick fuel st = Some (Cron.withResponse resp st1, resp) /\
       Cron.Status resp = StatusError /\ Cron.Error resp = e) /\
  (forall st1 before resource rest st2 st3 objects e,
     Cron.tick_reload st0 = (st1, None) ->
     Cron.rulesOf st1 = before ++ resource :: rest ->
     Cron.tick_range fuel before st1 = Some (st2, None) ->
     Cron.processResource fuel resource st2 = Some (st3, (objects, Some e)) ->
     exists resp,
       Cron.Tick fuel st = Some (Cron.withResponse resp st3, resp) /\
       Cron.Status resp = StatusError /\ Cron.Error resp = e).
Proof.
  intros st0 reload.
  assert (forall st1 e,
            Cron.tick_reload st0 = (st1, Some e) ->
            exists resp,
              Cron.Tick fuel st = Some (Cron.withResponse resp st1, resp) /\
              Cron.Status resp = StatusError /\ Cron.Error resp = e)
    as Hearly.
  { intros st1 e Hreload. exists (Cron.setError e (Cron.response st1)).
    unfold Cron.Tick, Cron.tick. fold st0. by rewrite Hreload. }
  split_and!.
  - intros r h changed e Hreload. apply Hearly.
    unfold Cron.tick_reload. fold reload. rewrite Hreload.
    by rewrite andb_false_r.
  - intros r h st1 e Hreload Hsecrets. apply Hearly.
    unfold Cron.tick_reload. fold reload. by rewrite Hreload.
  - intros st1 before resource rest st2 st3 objects e
      Hreload Hrules Hbefore Hfail.
    exists (Cron.setError e (Cron.response st3)).
    unfold Cron.Tick, Cron.tick. fold st0. rewrite Hreload, Hrules.
    rewrite (tick_range_app _ _ _ _ _ Hbefore). cbn. by rewrite Hfail.
Qed.


(** C8.  [Init] of the service with the trigger takes the scheme of
    [MetaURL] when [SourceScheme] is empty and selects the trigger by the
    scheme: the lambda trigger for s3 (or the error of its constructor),
    the in-memory trigger for mem; for any other scheme it returns the
    error naming the scheme, and neither the configuration nor the
    secrets have been initialised. *)
Theorem Init_dispatches_on_scheme (st : CronTrigger.State W Meta) :
  let scheme :=
    if bool_decide (Cron.SourceScheme (CronTrigger.config st) = "")
    then CronTrigger.url_Scheme (Cron.MetaURL (CronTrigger.config st)) ""
    else Cron.SourceScheme (CronTrigger.config st) in
  let st0 :=
    if bool_decide (Cron.SourceScheme (CronTrigger.config st) = "")
    then CronTrigger.withSourceScheme scheme st
    else st in
  (scheme = CronTrigger.s3_Scheme ->
   match CronTrigger.lambda_New (CronTrigger.world st) with
   | Some err =>
       CronTrigger.Init st = (CronTrigger.withDest None st0, Some err)
   | None =>
       CronTrigger.dest (CronTrigger.Init st).1 =
         Some CronTrigger.LambdaTrigger
   end) /\
  (scheme = CronTrigger.mem_Scheme ->
   CronTrigger.dest (CronTrigger.Init st).1 = Some CronTrigger.MemTrigger) /\
  (scheme <> CronTrigger.s3_Scheme -> scheme <> CronTrigger.mem_Scheme ->
   CronTrigger.Init st =
     (st0, Some ("unsupported source scheme: " +:+ scheme)) /\
   CronTrigger.log (CronTrigger.Init st).1 = CronTrigger.log st /\
   CronTrigger.dest (CronTrigger.Init st).1 = CronTrigger.dest st).
Proof.
  intros scheme st0.
  assert (Cron.SourceScheme (CronTrigger.config st0) = scheme) as Hscheme.
  { unfold st0, scheme. by case_bool_decide. }
  assert (CronTrigger.world st0 = CronTrigger.world st /\
          CronTrigger.log st0 = CronTrigger.log st /\
          CronTrigger.dest st0 = CronTrigger.dest st) as (Hw & Hl & Hd).
  { unfold st0. by case_bool_decide. }
  assert (forall st1 : CronTrigger.State W Meta,
            CronTrigger.dest (CronTrigger.UpdateSecrets st1).1 =
            CronTrigger.dest st1) as Hsecrets.
  { intros st1. unfold CronTrigger.UpdateSecrets.
    destruct (CronTrigger.secret st1); [|done].
    by destruct (secret_Init _ _). }
  assert (forall d : CronTrigger.Dest,
            CronTrigger.dest
              (let '(c, h, err) :=
                 CronTrigger.Config_Init
                   (CronTrigger.world (CronTrigger.withDest (Some d) st0))
                   (CronTrigger.config (CronTrigger.withDest (Some d) st0))
                   (CronTrigger.heap (CronTrigger.withDest (Some d) st0)) in
               let st1 :=
                 CronTrigger.emit [EvConfigInit]
                   (CronTrigger.withConfig c h
                      (CronTrigger.withDest (Some d) st0)) in
               match err with
               | Some err => (st1, Some err)
               | None => CronTrigger.UpdateSecrets st1
               end).1 = Some d) as Hrest.
  { intros d. destruct (CronTrigger.Config_Init _ _ _) as [[c h] [e|]];
      [done|]. by rewrite Hsecrets. }
  assert ((if bool_decide (Cron.SourceScheme (CronTrigger.config st) = "")
           then CronTrigger.withSourceScheme
                  (CronTrigger.url_Scheme
                     (Cron.MetaURL (CronTrigger.config st)) "") st
           else st) = st0) as Hinferred.
  { unfold st0, scheme. by case_bool_decide. }
  unfold CronTrigger.Init. rewrite Hinferred, Hscheme. split_and!.
  - intros Hs3. rewrite bool_decide_eq_true_2 by done. rewrite Hw.
    destruct (CronTrigger.lambda_New (CronTrigger.world st)); [done|].
    apply Hrest.
  - intros Hmem.
    rewrite bool_decide_eq_false_2 by (by rewrite Hmem).
    rewrite bool_decide_eq_true_2 by done. apply Hrest.
  - intros Hs3 Hmem. by rewrite !bool_decide_eq_false_2 by done.
Qed.

End CronClaims.

(** ** The event entry point *)

Section MirrorClaims.

Context {Service : Type} `{!Mirror.Env Service}.

(** C9.  [Fn] returns nil exactly when the service was made and the
    mirroring returned a response with an empty error; in every other
    case it returns an error whose message is the text "failed to mirror",
    the URL of the event and the message of the cause. *)
Theorem Fn_nil_iff_mirrored (eventURL : string) :
  (Mirror.Fn eventURL = None <->
   exists service,
     Mirror.NewFromEnv Mirror.ConfigEnvKey = Ok service /\
     Mirror.Error (Mirror.Mirror service (Mirror.NewRequest eventURL)) = "") /\
  (forall cause,
     Mirror.NewFromEnv Mirror.ConfigEnvKey = Err cause ->
     Mirror.Fn eventURL =
       Some ("failed to mirror " +:+ eventURL +:+ ": " +:+ cause)) /\
  (forall service,
     Mirror.NewFromEnv Mirror.ConfigEnvKey = Ok service ->
     let response := Mirror.Mirror service (Mirror.NewRequest eventURL) in
     Mirror.Error response <> "" ->
     Mirror.Fn eventURL =
       Some ("failed to mirror " +:+ eventURL +:+ ": " +:+
             Mirror.fmt_Errorf (Mirror.Error response))).
Proof.
  unfold Mirror.Fn, Mirror.fn, Wrap.
  destruct (Mirror.NewFromEnv Mirror.ConfigEnvKey) as [service|cause].
  - split_and!.
    + case_bool_decide as Herr.
      * split; [done|]. intros (service' & [= <-] & Hempty). done.
      * split; [|done]. intros _. exists service. split; [done|].
        by destruct (decide (Mirror.Error
          (Mirror.Mirror service (Mirror.NewRequest eventURL)) = "")).
    + done.
    + intros service' [= <-] Herr.
      by rewrite bool_decide_eq_true_2 by done.
  - split_and!.
    + split; [done|]. by intros (service & Hmade & _).
    + by intros cause' [= <-].
    + done.
Qed.

End MirrorClaims.

(** ** The modification-time window and the worker pool *)

Section WindowFacts.

Context {W Meta : Type} `{!Collaborators W}.


End WindowFacts.

Section PoolFacts.

Lemma peak_ge n events : (n <= peak n events)%nat.
Proof.
  revert n. induction events as [|[] events IH]; intros n; cbn;
    try apply IH; lia.
Qed.

Lemma running_app n a b : running n (a ++ b) = running (running n a) b.
Proof. revert n. induction a as [|[] a IH]; intros n; cbn; by try apply IH. Qed.

Lemma peak_app n a b :
  peak n (a ++ b) = Nat.max (peak n a) (peak (running n a) b).
Proof.
  revert n. induction a as [|[] a IH]; intros n; cbn; try apply IH.
  - pose proof (peak_ge n b). lia.
  - rewrite IH. lia.
  - rewrite IH. lia.
Qed.

Lemma running_go n k : running n (replicate k EvGo) = (n + k)%nat.
Proof.
  revert n. induction k as [|k IH]; intros n; cbn; [lia|]. rewrite IH. lia.
Qed.

Lemma peak_go n k : peak n (replicate k EvGo) = (n + k)%nat.
Proof.
  revert n. induction k as [|k IH]; intros n; cbn; [lia|]. rewrite IH. lia.
Qed.

Lemma running_done n k : running n (replicate k EvDone) = (n - k)%nat.
Proof.
  revert n. induction k as [|k IH]; intros n; cbn; [lia|]. rewrite IH. lia.
Qed.

Lemma peak_done n k : peak n (replicate k EvDone) = n.
Proof.
  revert n. induction k as [|k IH]; intros n; cbn; [lia|]. rewrite IH. lia.
Qed.

Lemma running_notify n (queue : list Object) errors :
  running n (zip_with EvNotify queue errors) = n.
Proof.
  revert errors. induction queue as [|o queue IH]; intros [|e errors]; cbn;
    auto.
Qed.

Lemma peak_notify n (queue : list Object) errors :
  peak n (zip_with EvNotify queue errors) = n.
Proof.
  revert errors. induction queue as [|o queue IH]; intros [|e errors]; cbn;
    auto.
Qed.

(** The events of one batch of the pool: [k] goroutines start, the
    notifications run, the [k] goroutines finish. *)
Lemma pool_batch n k (queue : list Object) errors :
  let events :=
    replicate k EvGo ++ zip_with EvNotify queue errors ++ replicate k EvDone in
  running n events = n /\ peak n events = (n + k)%nat /\
  started events = k.
Proof.
  cbn. split_and!.
  - rewrite !running_app, running_go, running_notify, running_done. lia.
  - rewrite !peak_app, peak_go, running_go, peak_notify, running_notify,
      peak_done. lia.
  - unfold started. rewrite !List.filter_app, !length_app.
    assert (forall j, length (List.filter isGo (replicate j EvGo)) = j) as ->.
    { induction j as [|j IH]; cbn; [done|]. by rewrite IH. }
    assert (forall j, length (List.filter isGo (replicate j EvDone)) = 0%nat)
      as ->.
    { induction j as [|j IH]; cbn; [done|]. by rewrite IH. }
    assert (length (List.filter isGo (zip_with EvNotify queue errors)) = 0%nat)
      as ->; [|lia].
    revert errors. induction queue as [|o queue IH]; intros [|e errors]; cbn;
      auto.
Qed.

End PoolFacts.

Section PoolBound.

Context {W Meta : Type}.
Context `{!Collaborators W} `{!Cron.ProxyService W} `{!RuleOps Cron.Rule}.
Context `{!MetaOps Meta}.

Implicit Types (st : Cron.State W Meta).

Lemma pooled_app a b : Cron.pooled a -> Cron.pooled b -> Cron.pooled (a ++ b).
Proof.
  intros [Ha Hpa] [Hb Hpb]. split.
  - by rewrite running_app, Ha.
  - rewrite peak_app, Ha. lia.
Qed.

Lemma pooled_calls events :
  Forall (fun ev => isGo ev = false /\ ev <> EvDone) events -> Cron.pooled events.
Proof.
  induction 1 as [|ev events [Hgo Hdone] _ [IHr IHp]]; [split; cbn; lia|].
  by destruct ev.
Qed.

Lemma Cron_processResource_pooled fuel resource st st' outcome :
  Cron.processResource fuel resource st = Some (st', outcome) ->
  exists events, Cron.log st' = Cron.log st ++ events /\ Cron.pooled events.
Proof.
  unfold Cron.processResource.
  destruct (Cron.getResourceCandidates fuel resource st)
    as [[st1 [objects [e|]]]|] eqn:Hcandidates; [| |done];
    apply Cron_candidates_log in Hcandidates as ->.
  { intros [= <- <-]. eexists. split; [reflexivity|].
    apply pooled_calls. by repeat constructor. }
  set (st1 := Cron.emit [EvPending objects] _).
  set (opening := [EvStorageOpts (Cron.Source resource); EvPending objects]).
  assert (Cron.log st1 = Cron.log st ++ opening) as Hlog1
    by (by unfold st1; cbn; rewrite <- app_assoc).
  assert (Cron.pooled opening) as Hopening
    by (apply pooled_calls; by repeat constructor).
  destruct (PendingResources (Cron.world st1) objects) as [pending|e].
  2:{ intros [= <- <-]. by exists opening. }
  case_bool_decide as Hempty.
  { intros [= <- <-]. by exists opening. }
  assert (pending <> []) as Hne by (by destruct pending).
  destruct (Cron_notifyAll_log resource pending st1 Hne)
    as (errors & Hlen & Hresult & Hlog).
  destruct (Cron.notifyAll resource pending st1) as [st2 result].
  cbn [fst snd] in Hresult, Hlog.
  destruct (pool_batch 0 Cron.Limit (completion (Cron.world st1) pending)
              errors) as (Hrun & Hpeak & _).
  set (batch := replicate Cron.Limit EvGo ++ _ ++ _) in *.
  assert (Cron.pooled batch) as Hbatch by (split; [done|rewrite Hpeak; lia]).
  assert (Cron.log st2 = Cron.log st ++ opening ++ batch) as Hlog2
    by (by rewrite Hlog, Hlog1, <- app_assoc).
  destruct result as [e|].
  { intros [= <- <-]. eexists. split; [exact Hlog2|]. by apply pooled_app. }
  destruct (AddProcessed (Cron.world st2) pending) as [w e].
  intros Hdone.
  exists ((opening ++ batch) ++ [EvAddProcessed pending e]). split.
  - assert (Cron.log st' = Cron.log st2 ++ [EvAddProcessed pending e])
      as -> by (by destruct e; injection Hdone as <- <-).
    by rewrite Hlog2, <- !app_assoc.
  - apply pooled_app; [by apply pooled_app|].
    apply pooled_calls. by repeat constructor.
Qed.

Lemma Cron_tick_range_pooled fuel rules st st' err :
  Cron.tick_range fuel rules st = Some (st', err) ->
  exists events, Cron.log st' = Cron.log st ++ events /\ Cron.pooled events.
Proof.
  revert st. induction rules as [|resource rules IH]; intros st; cbn.
  - intros [= <- <-]. exists []. split; [by rewrite app_nil_r|].
    by apply pooled_calls.
  - destruct (Cron.processResource fuel resource st)
      as [[st1 [processed e]]|] eqn:Hrule; [|done].
    apply Cron_processResource_pooled in Hrule as (first & Hlog1 & Hfirst).
    destruct e as [e|].
    { intros [= <- <-]. by exists first. }
    intros Hrest. apply IH in Hrest as (more & Hlog & Hmore).
    exists (first ++ more). split; [|by apply pooled_app].
    rewrite Hlog. case_bool_decide; cbn; by rewrite Hlog1, <- app_assoc.
Qed.

Lemma Cron_tick_reload_pooled st :
  exists events,
    Cron.log (Cron.tick_reload st).1 = Cron.log st ++ events /\
    Cron.pooled events.
Proof.
  unfold Cron.tick_reload.
  destruct (Config.ReloadIfNeeded _ _ _) as [[r h] [changed err]].
  destruct (changed && bool_decide (err = None)).
  - unfold Cron.UpdateSecrets. cbn [Cron.secret Cron.withResources].
    destruct (Cron.secret st).
    + destruct (secret_Init _ _) as [w e]. eexists. split; [reflexivity|].
      apply pooled_calls. by repeat constructor.
    + exists []. split; [by cbn; rewrite app_nil_r|]. by apply pooled_calls.
  - exists []. split; [by cbn; rewrite app_nil_r|]. by apply pooled_calls.
Qed.

(** X2.  During a tick of the service with the worker pool, never more than
    [Limit] notification workers run at once, however many objects are
    pending, and none is left running when [Tick] returns. *)
Lemma Cron_tick_pool_bound fuel st st' resp :
  Cron.Tick fuel st = Some (st', resp) ->
  exists events,
    Cron.log st' = Cron.log st ++ events /\
    running 0 events = 0%nat /\ (peak 0 events <= Cron.Limit)%nat.
Proof.
  unfold Cron.Tick, Cron.tick.
  set (st0 := Cron.withResponse Cron.NewResponse st).
  destruct (Cron_tick_reload_pooled st0) as (first & Hlog1 & Hfirst).
  destruct (Cron.tick_reload st0) as [st1 [e|]]; cbn [fst] in Hlog1.
  { intros [= <- _]. by exists first. }
  destruct (Cron.tick_range fuel (Cron.rulesOf st1) st1)
    as [[st2 err]|] eqn:Hrange; [|done].
  apply Cron_tick_range_pooled in Hrange as (more & Hlog & Hmore).
  assert (Cron.pooled (first ++ more)) as Hall by (by apply pooled_app).
  assert (Cron.log st2 = Cron.log st ++ first ++ more) as Hlog2
    by (by rewrite Hlog, Hlog1, <- app_assoc).
  destruct err as [e|]; intros [= <- _]; by exists (first ++ more).
Qed.

End PoolBound.

Section TriggerStarts.

Context {W Meta : Type} `{!Collaborators W} `{!CronTrigger.TriggerService W Meta}.


End TriggerStarts.

(** ** The properties at concrete inputs *)

Module Examples.

Import Fixtures.

(** A reload that meets a rule file which does not decode. *)
Lemma decode_error_witness :
  Config.loadAllResources (rulesStore "{") loaded.1 loaded.2 =
    (Config.withRules [] loaded.1, ["rule-a@project"],
     Some "failed to decode: mem://rules/a.json: unexpected end of JSON input") /\
  Config.loadAndInit (rulesStore "{") loaded.1 loaded.2 =
    (Config.withRules [] loaded.1, ["rule-a@project"],
     Some "failed to decode: mem://rules/a.json: unexpected end of JSON input").
Proof.
  apply (decode_error_leaves_partial_snapshot (rulesStore "{") loaded.1
           loaded.2 [] ruleFile [] [] "{" "unexpected end of JSON input");
    reflexivity || discriminate.
Defined.

(** C1 as stated fails: after a rule set was loaded from a rule file, a
    reload that meets a file which does not decode returns the decode
    error and leaves [Rules] empty, not as it was before the reload. *)
Lemma failed_reload_changes_rules :
  (Config.ReloadIfNeeded (rulesStore "{") loaded.1 loaded.2).2 =
    (true,
     Some "failed to decode: mem://rules/a.json: unexpected end of JSON input") /\
  Config.Rules loaded.1 = [0%nat] /\
  Config.Rules (Config.ReloadIfNeeded (rulesStore "{") loaded.1 loaded.2).1.1
    = [] /\
  Config.Rules (Config.ReloadIfNeeded (rulesStore "{") loaded.1 loaded.2).1.1
    <> Config.Rules loaded.1.
Proof. split_and!; [reflexivity..|discriminate]. Qed.

Lemma snapshot_witness :
  Config.loadAllResources (rulesStore "rule-b") loaded.1 loaded.2 =
    (Config.withRules [1%nat] loaded.1, ["rule-a@project"; "rule-b"], None).
Proof.
  apply (loadAllResources_snapshot (rulesStore "rule-b") loaded.1 loaded.2
           [ruleFile] ["rule-b"]); reflexivity || discriminate.
Defined.

Lemma missing_base_witness :
  Config.loadAllResources emptyStore loaded.1 loaded.2 =
    (Config.withRules [] loaded.1, ["rule-a@project"], None) /\
  Config.Rules (Config.loadAllResources emptyStore loaded.1 loaded.2).1.1 = [].
Proof.
  apply (missing_base_resets_to_seed emptyStore loaded.1 loaded.2);
    reflexivity || discriminate.
Defined.



Lemma aborted_tick_witness :
  exists resp,
    Cron.Tick 3 (cronState [everything; onlySub] flaky) =
      Some (Cron.withResponse resp afterFailure, resp) /\
    Cron.Status resp = StatusError /\
    Cron.Error resp = "failed to notify all: denied mem://src/new.txt".
Proof.
  apply (proj2 (proj2 (first_error_aborts_tick 3
                         (cronState [everything; onlySub] flaky)))
           tickStart [] everything [onlySub] tickStart afterFailure []);
    vm_compute; reflexivity.
Defined.

(** In the aborted tick the second rule is not looked at: the only call
    to the secret facade is for the source of the first rule. *)
Lemma aborted_tick_skips_later_rule :
  List.filter
    (fun ev => match ev with EvStorageOpts _ => true | _ => false end)
    (Cron.log afterFailure) = [EvStorageOpts (Cron.Source everything)].
Proof. reflexivity. Qed.



(** The trigger is selected by the scheme, inferred from the meta URL
    when it is not given; a scheme other than s3 and mem is refused. *)
Lemma scheme_witness :
  CronTrigger.Init (triggerState "gs" calm) =
    (triggerState "gs" calm, Some "unsupported source scheme: gs") /\
  CronTrigger.dest (CronTrigger.Init (triggerState "" calm)).1 =
    Some CronTrigger.MemTrigger.
Proof.
  split.
  - apply (proj2 (proj2 (Init_dispatches_on_scheme (triggerState "gs" calm))));
      discriminate.
  - by apply (proj1 (proj2 (Init_dispatches_on_scheme (triggerState "" calm)))).
Defined.

Lemma Fn_witness :
  Mirror.Fn "mem://src/a.txt" = None /\
  Mirror.Fn "mem://src/locked.txt" =
    Some "failed to mirror mem://src/locked.txt: access denied".
Proof.
  split.
  - apply (proj1 (Fn_nil_iff_mirrored "mem://src/a.txt")). by exists tt.
  - etransitivity.
    + apply (proj2 (proj2 (Fn_nil_iff_mirrored "mem://src/locked.txt")) tt);
        [reflexivity|vm_compute; discriminate].
    + vm_compute. reflexivity.
Defined.

(** C2 at a concrete input: at time 100 with a window of 50, the service
    with the trigger takes [oldFile], modified at time 10, as a
    candidate; the service with the worker pool does not. *)
Lemma trigger_candidates_ignore_window :
  snd <$> CronTrigger.getResourceCandidates 3 triggered (triggerState "mem" calm)
    = Some ([oldFile; deepFile; newFile], None) /\
  ModTime oldFile <
    Now (CronTrigger.world (triggerState "mem" calm)) -
    Cron.TimeWindow (CronTrigger.config (triggerState "mem" calm)) /\
  snd <$> Cron.getResourceCandidates 3 everything (cronState [everything] calm)
    = Some ([deepFile; newFile], None).
Proof. split_and!; reflexivity. Qed.

(** C4 at a concrete input: for 51 pending objects the service with the
    trigger starts 51 goroutines, all running at once, one more than
    [Limit]; the service with the worker pool starts 50. *)
Lemma trigger_notifyAll_exceeds_limit :
  (fun r => (started (CronTrigger.log r.1), peak 0 (CronTrigger.log r.1)))
    <$> CronTrigger.notifyAll triggered (batch 51) (triggerState "mem" calm)
    = Some (51%nat, 51%nat) /\
  Cron.Limit = 50%nat /\
  (let st := (Cron.notifyAll everything (batch 51) (cronState [everything] calm)).1 in
   (started (Cron.log st), peak 0 (Cron.log st))) = (50%nat, 50%nat).
Proof. split_and!; vm_compute; reflexivity. Qed.


Lemma nests_witness :
  (exists outcome,
     Cron.appendResources (W:=World) 2 sourceStore "mem://src" []
       (cfg.Basic_ (Cron.Source onlySub)) [] = Some outcome) /\
  (exists outcome,
     CronTrigger.appendResources 2 sourceStore "mem://src" [] [] = Some outcome).
Proof.
  assert (nests sourceStore [] 2 "mem://src") as Hnests.
  { eapply nests_listed; [reflexivity|].
    intros i object Hi Hdir Hindex.
    destruct i as [|[|[|[|i]]]]; cbn in Hi; try done;
      injection Hi as <-; try discriminate Hdir.
    eapply nests_listed; [reflexivity|].
    intros j deeper Hj Hdeeper Hbelow.
    destruct j as [|[|j]]; cbn in Hj; try done;
      injection Hj as <-; discriminate Hdeeper. }
  destruct (appendResources_returns (W:=World) sourceStore [] 2 "mem://src" Hnests)
    as [Hpool Htrigger].
  split; [apply Hpool|apply Htrigger].
Defined.


Lemma pool_witness :
  match Cron.Tick 3 (cronState [everything; onlySub] calm) with
  | Some (st', _) =>
      exists events,
        Cron.log st' = [] ++ events /\
        running 0 events = 0%nat /\ (peak 0 events <= Cron.Limit)%nat
  | None => False
  end.
Proof.
  destruct (Cron.Tick 3 (cronState [everything; onlySub] calm))
    as [[st' resp]|] eqn:Hrun; [|vm_compute in Hrun; discriminate].
  exact (Cron_tick_pool_bound 3 _ st' resp Hrun).
Defined.


End Examples.

(** * Further properties *)

(** ** The rule-set loader: what a load keeps *)

Section LoaderFacts.

Context {Resource Meta : Type} `{!RuleOps Resource} `{!MetaOps Meta}.

Implicit Types (r : Config.Resources Meta) (h : Config.Heap Resource).
Implicit Types (fs : Fs).

Lemma loadAllResources_range_grows fs objects r h r' h' err :
  Config.loadAllResources_range fs objects r h = (r', h', err) ->
  exists more,
    h' = h ++ more /\
    Config.Rules r' = Config.Rules r ++ seq (length h) (length more) /\
    sameSettings r r'.
Proof.
  revert r h. induction objects as [|object objects IH]; intros r h; cbn.
  - intros [= <- <- <-]. exists []. by rewrite !app_nil_r.
  - destruct (IsDir object); [apply IH|].
    unfold Config.loadResources.
    destruct (Download fs object) as [reader|].
    2:{ intros [= <- <- <-]. exists []. by rewrite !app_nil_r. }
    destruct (Decode reader) as [resources|].
    2:{ intros [= <- <- <-]. exists []. by rewrite !app_nil_r. }
    intros Hrest. apply IH in Hrest as (more & -> & Hrules & Hsame).
    exists (resources ++ more). cbn in Hrules. split_and!.
    + by rewrite app_assoc.
    + rewrite Hrules, !length_app, seq_app, <- !app_assoc. done.
    + exact Hsame.
Qed.

Lemma loadAllResources_grows fs r h r' h' err :
  Config.BaseURL r <> "" ->
  Config.loadAllResources fs r h = (r', h', err) ->
  exists more,
    h' = h ++ more /\
    Config.Rules r' = Config.initialRules r ++ seq (length h) (length more) /\
    sameSettings r r'.
Proof.
  intros Hbase. unfold Config.loadAllResources.
  rewrite bool_decide_eq_false_2 by done. cbn.
  assert (exists more,
            h = h ++ more /\
            Config.Rules (Config.withRules (Config.initialRules r) r) =
              Config.initialRules r ++ seq (length h) (length more) /\
            sameSettings r (Config.withRules (Config.initialRules r) r))
    as Hreset by (exists []; by rewrite !app_nil_r).
  destruct (Exists fs (Config.BaseURL r)) as [[|] [e|]];
    try (intros [= <- <- <-]; exact Hreset).
  destruct (List fs (Config.BaseURL r) [Config.suffixMatcher]) as [objects|];
    [|intros [= <- <- <-]; exact Hreset].
  intros Hrange. by apply loadAllResources_range_grows in Hrange.
Qed.

(** X6.  Every load of a rule set with a base URL, whether it ends in an
    error or not, leaves [Rules] as the seed [initialRules] followed by
    the rules it has just allocated; the seed, the base URL and the
    project are as before, and the rules that were in the store before
    are still there, unchanged. *)
Theorem load_keeps_seed fs r h r' h' err :
  Config.BaseURL r <> "" ->
  Config.loadAllResources fs r h = (r', h', err) ->
  exists more,
    h' = h ++ more /\
    Config.Rules r' = Config.initialRules r ++ seq (length h) (length more) /\
    Config.initialRules r' = Config.initialRules r /\
    Config.BaseURL r' = Config.BaseURL r /\
    Config.projectID r' = Config.projectID r.
Proof.
  intros Hbase Hload.
  destruct (loadAllResources_grows _ _ _ _ _ _ Hbase Hload)
    as (more & Hstore & Hrules & Hsame).
  exists more. destruct Hsame as (Hbase' & _ & Hseed & _ & Hid & _).
  by split_and!.
Qed.

Lemma initAll_lookup id rules h l :
  NoDup rules ->
  Config.initAll id rules h !! l =
  if bool_decide (l ∈ rules) then ResourceInit id <$> h !! l else h !! l.
Proof.
  intros Hnodup. revert h.
  induction Hnodup as [|l0 rules Hfresh _ IH]; intros h; [done|].
  change (Config.initAll id (l0 :: rules) h)
    with (Config.initAll id rules (alter (ResourceInit id) l0 h)).
  rewrite IH. destruct (decide (l = l0)) as [->|Hne].
  - rewrite (bool_decide_eq_false_2 (l0 ∈ rules)) by done.
    rewrite bool_decide_eq_true_2 by (by left).
    apply list_lookup_alter_eq.
  - rewrite list_lookup_alter_ne by done.
    case_bool_decide as Hin.
    + by rewrite bool_decide_eq_true_2 by (by right).
    + rewrite bool_decide_eq_false_2; [done|].
      intros [->|Hin']%elem_of_cons; done.
Qed.

(** X7.  A reload that succeeds runs [Init] once more on every seed rule,
    since [Rules] shares them with [initialRules], and once on every rule
    it has decoded; the rules of the store that the new snapshot does not
    hold are left as they were. *)
Theorem reload_initialises_seed_again fs r h r' h' :
  Config.BaseURL r <> "" ->
  NoDup (Config.initialRules r) ->
  Forall (fun l : loc => (l < length h)%nat) (Config.initialRules r) ->
  Config.loadAndInit fs r h = (r', h', None) ->
  exists decoded,
    length h' = (length h + length decoded)%nat /\
    Config.Rules r' =
      Config.initialRules r ++ seq (length h) (length decoded) /\
    (forall l v,
       l ∈ Config.initialRules r -> h !! l = Some v ->
       h' !! l = Some (ResourceInit (Config.projectID r) v)) /\
    (forall i v,
       decoded !! i = Some v ->
       h' !! (length h + i)%nat = Some (ResourceInit (Config.projectID r) v)) /\
    (forall l v,
       l ∉ Config.initialRules r -> h !! l = Some v -> h' !! l = Some v).
Proof.
  intros Hbase Hnodup Hseed. unfold Config.loadAndInit.
  destruct (Config.loadAllResources fs r h) as [[r1 h1] [e|]] eqn:Hload;
    [done|].
  intros [= <- <-].
  destruct (loadAllResources_grows _ _ _ _ _ _ Hbase Hload)
    as (decoded & -> & Hrules & Hsame).
  destruct Hsame as (_ & _ & _ & _ & Hid & _). rewrite Hid, Hrules.
  assert (NoDup (Config.initialRules r ++ seq (length h) (length decoded)))
    as Hall.
  { apply NoDup_app. split_and!; [done| |apply NoDup_seq].
    intros l Hl Hfresh. apply elem_of_seq in Hfresh.
    rewrite Forall_forall in Hseed. specialize (Hseed l Hl). lia. }
  exists decoded. split_and!.
  - by rewrite length_initAll, length_app.
  - done.
  - intros l v Hl Hv. rewrite initAll_lookup by done.
    rewrite bool_decide_eq_true_2 by (apply elem_of_app; by left).
    by rewrite (lookup_app_l_Some _ _ _ _ Hv).
  - intros i v Hi. rewrite initAll_lookup by done.
    rewrite bool_decide_eq_true_2.
    + rewrite lookup_app_r by lia.
      replace (length h + i - length h)%nat with i by lia. by rewrite Hi.
    + apply elem_of_app. right. apply elem_of_seq.
      apply lookup_lt_Some in Hi. lia.
  - intros l v Hl Hv. rewrite initAll_lookup by done.
    rewrite bool_decide_eq_false_2.
    + by apply lookup_app_l_Some.
    + intros [Hin|Hin]%elem_of_app; [done|].
      apply elem_of_seq in Hin. apply lookup_lt_Some in Hv. lia.
Qed.

Lemma loadAndInit_settings fs r h r' h' err :
  Config.loadAndInit fs r h = (r', h', err) -> sameSettings r r'.
Proof.
  unfold Config.loadAndInit.
  destruct (Config.loadAllResources fs r h) as [[r1 h1] e] eqn:Hload.
  assert (sameSettings r r1) as Hsame.
  { unfold Config.loadAllResources in Hload. case_bool_decide.
    - by injection Hload as <- _ _.
    - destruct (loadAllResources_grows fs r h r1 h1 e) as (more & _ & _ & Hs);
        [done| |done].
      unfold Config.loadAllResources. by rewrite bool_decide_eq_false_2. }
  by destruct e; intros [= <- _ _].
Qed.

(** X8.  The seed is fixed by the first [Init] and by nothing else: a
    first [Init] takes the rules given in the configuration as the seed,
    and a later [Init], like any reload, leaves the seed as it is, also
    when rules have been loaded in between. *)
Theorem Init_fixes_seed_once fs id r h r' h' err :
  Config.Init fs id r h = (r', h', err) ->
  Config.projectID r' = id /\
  (Config.inited r = 0 ->
   Config.initialRules r' = Config.Rules r /\ Config.inited r' = 1) /\
  (Config.inited r <> 0 ->
   Config.initialRules r' = Config.initialRules r /\
   Config.inited r' = Config.inited r).
Proof.
  unfold Config.Init. intros Hinit.
  apply loadAndInit_settings in Hinit
    as (_ & _ & Hseed & Hinited & Hid & _).
  cbn in Hseed, Hinited, Hid. rewrite Hseed, Hinited, Hid.
  split; [done|]. unfold Config.initRules. split.
  - intros Hfirst. rewrite !bool_decide_eq_true_2 by done. cbn.
    destruct (Config.Rules r) as [|l rules] eqn:Hrules; cbn.
    + by rewrite bool_decide_eq_false_2 by lia.
    + by rewrite bool_decide_eq_true_2 by lia.
  - intros Hlater. rewrite !bool_decide_eq_false_2 by done. done.
Qed.

End LoaderFacts.

(** ** The walk: what it gathers *)

Section CandidateFacts.

Context {W Meta : Type} `{!Collaborators W}.

Implicit Types (fs : Fs) (filter : cfg.Basic) (options : list StorageOption).

Lemma Cron_range_files
    (recurse : string -> list Object -> option (list Object * option error))
    filter (Q : Object -> Prop) :
  (forall o, IsDir o = false -> Cron.matched filter o = true -> Q o) ->
  (forall URL r r' e, recurse URL r = Some (r', e) -> Forall Q r -> Forall Q r') ->
  forall objects i result result' err,
  Cron.appendResources_range recurse filter objects i result =
    Some (result', err) ->
  Forall Q result -> Forall Q result'.
Proof.
  intros HQ Hrec. induction objects as [|object objects IH];
    intros i result result' err Hrun Hresult; cbn in Hrun.
  - by injection Hrun as <- <-.
  - destruct (IsDir object) eqn:Hdir; cbn in Hrun.
    + destruct (Nat.eqb i 0); cbn in Hrun; [by eapply IH|].
      destruct (recurse (URL object) result) as [[r1 [e|]]|] eqn:Hsub;
        try done.
      * injection Hrun as <- <-. by eapply Hrec.
      * eapply IH; [exact Hrun|]. by eapply Hrec.
    + rewrite andb_false_r in Hrun.
      pose proof (HQ object Hdir) as Hobject. unfold Cron.matched in Hobject.
      destruct (url_Base (URL object) file_Scheme) as [base URLPath].
      destruct (path_Split URLPath) as [parent name].
      destruct (Match filter parent object); [|by eapply IH].
      eapply IH; [exact Hrun|]. apply Forall_app. split; [done|].
      constructor; [by apply Hobject|constructor].
Qed.

Lemma Cron_appendResources_files fs filter options fuel :
  forall URL result result' err,
  Cron.appendResources fuel fs URL result filter options =
    Some (result', err) ->
  Forall (fun o => IsDir o = false /\ Cron.matched filter o = true) result ->
  Forall (fun o => IsDir o = false /\ Cron.matched filter o = true) result'.
Proof.
  induction fuel as [|fuel IH]; intros URL result result' err Hrun Hresult;
    [done|].
  cbn in Hrun. destruct (List fs URL options) as [objects|].
  - revert Hrun Hresult. apply Cron_range_files; [done|].
    intros URL' r r' e Hsub Hr. by eapply IH.
  - by injection Hrun as <- <-.
Qed.

Lemma Trigger_range_files
    (recurse : string -> list Object -> option (list Object * option error)) :
  (forall URL r r' e,
     recurse URL r = Some (r', e) ->
     Forall (fun o => IsDir o = false) r ->
     Forall (fun o => IsDir o = false) r') ->
  forall objects i result result' err,
  CronTrigger.appendResources_range recurse objects i result =
    Some (result', err) ->
  Forall (fun o => IsDir o = false) result ->
  Forall (fun o => IsDir o = false) result'.
Proof.
  intros Hrec. induction objects as [|object objects IH];
    intros i result result' err Hrun Hresult; cbn in Hrun.
  - by injection Hrun as <- <-.
  - destruct (IsDir object) eqn:Hdir; cbn in Hrun.
    + destruct (Nat.eqb i 0); cbn in Hrun; [by eapply IH|].
      destruct (recurse (URL object) result) as [[r1 [e|]]|] eqn:Hsub;
        try done.
      * injection Hrun as <- <-. by eapply Hrec.
      * eapply IH; [exact Hrun|]. by eapply Hrec.
    + rewrite andb_false_r in Hrun.
      eapply IH; [exact Hrun|]. apply Forall_app. split; [done|].
      by repeat constructor.
Qed.

Lemma Trigger_appendResources_files fs options fuel :
  forall URL result result' err,
  CronTrigger.appendResources fuel fs URL result options =
    Some (result', err) ->
  Forall (fun o => IsDir o = false) result ->
  Forall (fun o => IsDir o = false) result'.
Proof.
  induction fuel as [|fuel IH]; intros URL result result' err Hrun Hresult;
    [done|].
  cbn in Hrun. destruct (List fs URL options) as [objects|].
  - revert Hrun Hresult. apply Trigger_range_files.
    intros URL' r r' e Hsub Hr. by eapply IH.
  - by injection Hrun as <- <-.
Qed.

(** X9.  The candidates of a rule are never directories, whatever the
    listings hold and whether the walk ends in an error or not; in the
    service with the worker pool every candidate is also matched by the
    filter of the rule's source. *)
Theorem candidates_are_files :
  (forall fuel resource (st st' : Cron.State W Meta) objects err,
     Cron.getResourceCandidates fuel resource st =
       Some (st', (objects, err)) ->
     Forall
       (fun o =>
          IsDir o = false /\
          Cron.matched (cfg.Basic_ (Cron.Source resource)) o = true)
       objects) /\
  (forall `{!CronTrigger.TriggerService W Meta} fuel resource
          (st st' : CronTrigger.State W Meta) objects err,
     CronTrigger.getResourceCandidates fuel resource st =
       Some (st', (objects, err)) ->
     Forall (fun o => IsDir o = false) objects).
Proof.
  split.
  - intros fuel resource st st' objects err.
    unfold Cron.getResourceCandidates.
    destruct (StorageOpts _ _) as [options|].
    + destruct (Cron.appendResources _ _ _ _ _ _) as [[result e]|] eqn:Hwalk;
        [|done].
      intros [= _ <- _].
      eapply Cron_appendResources_files; [exact Hwalk|constructor].
    + intros [= _ <- _]. constructor.
  - intros Htrigger fuel resource st st' objects err.
    unfold CronTrigger.getResourceCandidates.
    destruct (StorageOpts _ _) as [options|].
    + destruct (CronTrigger.appendResources _ _ _ _ _) as [[result e]|]
        eqn:Hwalk; [|done].
      intros [= _ <- _].
      eapply Trigger_appendResources_files; [exact Hwalk|constructor].
    + intros [= _ <- _]. constructor.
Qed.

Lemma Cron_range_more_fuel
    (recurse recurse' :
       string -> list Object -> option (list Object * option error))
    filter :
  (forall URL r out, recurse URL r = Some out -> recurse' URL r = Some out) ->
  forall objects i result out,
  Cron.appendResources_range recurse filter objects i result = Some out ->
  Cron.appendResources_range recurse' filter objects i result = Some out.
Proof.
  intros Hrec. induction objects as [|object objects IH];
    intros i result out Hrun; cbn in Hrun |- *; [done|].
  destruct (Nat.eqb i 0 && IsDir object); [by apply IH|].
  destruct (IsDir object).
  - destruct (recurse (URL object) result) as [[r1 e]|] eqn:Hsub; [|done].
    rewrite (Hrec _ _ _ Hsub). destruct e; [done|by apply IH].
  - destruct (url_Base (URL object) file_Scheme) as [base URLPath].
    destruct (path_Split URLPath) as [parent name].
    destruct (Match filter parent object); by apply IH.
Qed.

Lemma Trigger_range_more_fuel
    (recurse recurse' :
       string -> list Object -> option (list Object * option error)) :
  (forall URL r out, recurse URL r = Some out -> recurse' URL r = Some out) ->
  forall objects i result out,
  CronTrigger.appendResources_range recurse objects i result = Some out ->
  CronTrigger.appendResources_range recurse' objects i result = Some out.
Proof.
  intros Hrec. induction objects as [|object objects IH];
    intros i result out Hrun; cbn in Hrun |- *; [done|].
  destruct (Nat.eqb i 0 && IsDir object); [by apply IH|].
  destruct (IsDir object); [|by apply IH].
  destruct (recurse (URL object) result) as [[r1 e]|] eqn:Hsub; [|done].
  rewrite (Hrec _ _ _ Hsub). destruct e; [done|by apply IH].
Qed.

Lemma Cron_appendResources_succ fs filter options fuel :
  forall URL result out,
  Cron.appendResources fuel fs URL result filter options = Some out ->
  Cron.appendResources (S fuel) fs URL result filter options = Some out.
Proof.
  induction fuel as [|fuel IH]; intros URL result out Hrun; [done|].
  cbn in Hrun. change (Cron.appendResources (S (S fuel)) fs URL result filter options)
    with (match List fs URL options with
          | Err err => Some (result, Some err)
          | Ok objects =>
              Cron.appendResources_range
                (fun URL' result' =>
                   Cron.appendResources (S fuel) fs URL' result' filter options)
                filter objects 0 result
          end).
  destruct (List fs URL options) as [objects|]; [|done].
  revert Hrun. apply Cron_range_more_fuel. intros URL' r out'. apply IH.
Qed.

Lemma Trigger_appendResources_succ fs options fuel :
  forall URL result out,
  CronTrigger.appendResources fuel fs URL result options = Some out ->
  CronTrigger.appendResources (S fuel) fs URL result options = Some out.
Proof.
  induction fuel as [|fuel IH]; intros URL result out Hrun; [done|].
  cbn in Hrun.
  change (CronTrigger.appendResources (S (S fuel)) fs URL result options)
    with (match List fs URL options with
          | Err err => Some (result, Some err)
          | Ok objects =>
              CronTrigger.appendResources_range
                (fun URL' result' =>
                   CronTrigger.appendResources (S fuel) fs URL' result' options)
                objects 0 result
          end).
  destruct (List fs URL options) as [objects|]; [|done].
  revert Hrun. apply Trigger_range_more_fuel. intros URL' r out'. apply IH.
Qed.

(** The outcome of a walk does not depend on the fuel: once
    [appendResources] returns with some fuel, it returns the same result
    and error with any larger fuel. *)
Lemma appendResources_fuel_irrelevant fs options fuel more URL result out :
  (forall filter,
     Cron.appendResources fuel fs URL result filter options = Some out ->
     Cron.appendResources (fuel + more) fs URL result filter options =
       Some out) /\
  (CronTrigger.appendResources fuel fs URL result options = Some out ->
   CronTrigger.appendResources (fuel + more) fs URL result options =
     Some out).
Proof.
  induction more as [|more [IHpool IHtrigger]].
  - by rewrite Nat.add_0_r.
  - rewrite Nat.add_succ_r. split.
    + intros filter Hrun. by apply Cron_appendResources_succ, IHpool.
    + intros Hrun. by apply Trigger_appendResources_succ, IHtrigger.
Qed.

Lemma Cron_range_appends fs options
    (recurse : string -> list Object -> option (list Object * option error))
    filter :
  (forall URL r r' err,
     recurse URL r = Some (r', err) ->
     r `prefix_of` r' /\
     forall e, err = Some e -> exists URL', List fs URL' options = Err e) ->
  forall objects i result result' err,
  Cron.appendResources_range recurse filter objects i result =
    Some (result', err) ->
  result `prefix_of` result' /\
  forall e, err = Some e -> exists URL', List fs URL' options = Err e.
Proof.
  intros Hrec. induction objects as [|object objects IH];
    intros i result result' err Hrun; cbn in Hrun.
  - by injection Hrun as <- <-.
  - destruct (Nat.eqb i 0 && IsDir object); [by eapply IH|].
    destruct (IsDir object).
    + destruct (recurse (URL object) result) as [[r1 e1]|] eqn:Hsub; [|done].
      apply Hrec in Hsub as [Hprefix Herr]. destruct e1 as [e1|].
      * by injection Hrun as <- <-.
      * apply IH in Hrun as [Hrest Herr']. split; [by etrans|done].
    + destruct (url_Base (URL object) file_Scheme) as [base URLPath].
      destruct (path_Split URLPath) as [parent name].
      destruct (Match filter parent object); [|by eapply IH].
      apply IH in Hrun as [Hrest Herr]. split; [|done].
      etrans; [|exact Hrest]. by apply prefix_app_r.
Qed.

Lemma Trigger_range_appends fs options
    (recurse : string -> list Object -> option (list Object * option error)) :
  (forall URL r r' err,
     recurse URL r = Some (r', err) ->
     r `prefix_of` r' /\
     forall e, err = Some e -> exists URL', List fs URL' options = Err e) ->
  forall objects i result result' err,
  CronTrigger.appendResources_range recurse objects i result =
    Some (result', err) ->
  result `prefix_of` result' /\
  forall e, err = Some e -> exists URL', List fs URL' options = Err e.
Proof.
  intros Hrec. induction objects as [|object objects IH];
    intros i result result' err Hrun; cbn in Hrun.
  - by injection Hrun as <- <-.
  - destruct (Nat.eqb i 0 && IsDir object); [by eapply IH|].
    destruct (IsDir object).
    + destruct (recurse (URL object) result) as [[r1 e1]|] eqn:Hsub; [|done].
      apply Hrec in Hsub as [Hprefix Herr]. destruct e1 as [e1|].
      * by injection Hrun as <- <-.
      * apply IH in Hrun as [Hrest Herr']. split; [by etrans|done].
    + apply IH in Hrun as [Hrest Herr]. split; [|done].
      etrans; [|exact Hrest]. by apply prefix_app_r.
Qed.

(** X10.  A walk only appends, and it makes up no error: what
    [appendResources] leaves in the result starts with what was there
    before, in the same order, also when the walk ends in an error; and
    an error it returns is the error of a listing it asked for. *)
Theorem appendResources_only_appends fs options fuel URL result result' err :
  (forall filter,
     Cron.appendResources fuel fs URL result filter options =
       Some (result', err) ->
     result `prefix_of` result' /\
     forall e, err = Some e -> exists URL', List fs URL' options = Err e) /\
  (CronTrigger.appendResources fuel fs URL result options =
     Some (result', err) ->
   result `prefix_of` result' /\
   forall e, err = Some e -> exists URL', List fs URL' options = Err e).
Proof.
  split.
  - intros filter. revert URL result result' err.
    induction fuel as [|fuel IH]; intros URL result result' err Hrun; [done|].
    cbn in Hrun. destruct (List fs URL options) as [objects|e0] eqn:Hlist.
    + revert Hrun. apply Cron_range_appends. intros URL' r r' e. apply IH.
    + injection Hrun as <- <-. split; [done|]. intros e [= <-]. by exists URL.
  - revert URL result result' err.
    induction fuel as [|fuel IH]; intros URL result result' err Hrun; [done|].
    cbn in Hrun. destruct (List fs URL options) as [objects|e0] eqn:Hlist.
    + revert Hrun. apply Trigger_range_appends. intros URL' r r' e. apply IH.
    + injection Hrun as <- <-. split; [done|]. intros e [= <-]. by exists URL.
Qed.

End CandidateFacts.

(** ** The batch of one rule and the response of a tick *)

Section ResponseFacts.

Context {W Meta : Type} `{!Collaborators W} `{!Cron.ProxyService W}.

Implicit Types (st : Cron.State W Meta) (r : Cron.Response).

Lemma fold_AddMoved r (m : gmap string string) :
  map_fold Cron.AddMoved r m =
  Cron.mkResponse (Cron.Status r) (Cron.Error r) (Cron.Matched_ r)
    (m ∪ Cron.Moved r) (Cron.Copied r) (Cron.Invoked r).
Proof.
  induction m as [|k v m Hfresh Hfold IH] using map_first_key_ind.
  - rewrite map_fold_empty, (left_id_L ∅ (∪)). by destruct r.
  - rewrite map_fold_insert_first_key by done. rewrite IH.
    unfold Cron.AddMoved. cbn. by rewrite insert_union_l.
Qed.

Lemma fold_AddCopied r (m : gmap string string) :
  map_fold Cron.AddCopied r m =
  Cron.mkResponse (Cron.Status r) (Cron.Error r) (Cron.Matched_ r)
    (Cron.Moved r) (m ∪ Cron.Copied r) (Cron.Invoked r).
Proof.
  induction m as [|k v m Hfresh Hfold IH] using map_first_key_ind.
  - rewrite map_fold_empty, (left_id_L ∅ (∪)). by destruct r.
  - rewrite map_fold_insert_first_key by done. rewrite IH.
    unfold Cron.AddCopied. cbn. by rewrite insert_union_l.
Qed.

Lemma fold_AddInvoked r (m : gmap string string) :
  map_fold Cron.AddInvoked r m =
  Cron.mkResponse (Cron.Status r) (Cron.Error r) (Cron.Matched_ r)
    (Cron.Moved r) (Cron.Copied r) (m ∪ Cron.Invoked r).
Proof.
  induction m as [|k v m Hfresh Hfold IH] using map_first_key_ind.
  - rewrite map_fold_empty, (left_id_L ∅ (∪)). by destruct r.
  - rewrite map_fold_insert_first_key by done. rewrite IH.
    unfold Cron.AddInvoked. cbn. by rewrite insert_union_l.
Qed.

(** A notification that succeeds merges the moved, copied and invoked
    maps of the proxy response into the response of the tick and touches
    nothing else of the response; a notification that fails leaves the
    response as it was and returns the error of the proxy response. *)
Lemma notify_merges_proxy_maps rule object st :
  let request :=
    proxy.mkRequest (cfg.CloneWithURL (Cron.Source rule) (URL object))
      (Cron.Dest rule) (Cron.Move rule) true in
  let answer := (Cron.Proxy (Cron.world st) request).2 in
  let st' := (Cron.notify rule object st).1 in
  (proxy.Error answer = "" ->
   (Cron.notify rule object st).2 = None /\
   Cron.response st' =
     Cron.mkResponse (Cron.Status (Cron.response st))
       (Cron.Error (Cron.response st)) (Cron.Matched_ (Cron.response st))
       (proxy.Moved answer ∪ Cron.Moved (Cron.response st))
       (proxy.Copied answer ∪ Cron.Copied (Cron.response st))
       (proxy.Invoked answer ∪ Cron.Invoked (Cron.response st))) /\
  (proxy.Error answer <> "" ->
   (Cron.notify rule object st).2 = Some (proxy.Error answer) /\
   Cron.response st' = Cron.response st).
Proof.
  cbn zeta. unfold Cron.notify.
  destruct (Cron.Proxy _ _) as [w answer]. cbn [snd]. split.
  - intros Hok. rewrite bool_decide_eq_false_2 by (by intros []).
    cbn [fst snd]. split; [done|].
    rewrite fold_AddInvoked, fold_AddCopied, fold_AddMoved. done.
  - intros Hfailed. by rewrite bool_decide_eq_true_2.
Qed.

Lemma Cron_notify_verdict rule object st :
  Cron.Status (Cron.response (Cron.notify rule object st).1) =
    Cron.Status (Cron.response st) /\
  Cron.Error (Cron.response (Cron.notify rule object st).1) =
    Cron.Error (Cron.response st) /\
  Cron.Matched_ (Cron.response (Cron.notify rule object st).1) =
    Cron.Matched_ (Cron.response st).
Proof.
  unfold Cron.notify. destruct (Cron.Proxy _ _) as [w answer].
  case_bool_decide; [done|]. cbn [fst].
  by rewrite fold_AddInvoked, fold_AddCopied, fold_AddMoved.
Qed.

Lemma Cron_work_verdict rule queue st :
  Cron.Status (Cron.response (Cron.work rule queue st).1) =
    Cron.Status (Cron.response st) /\
  Cron.Error (Cron.response (Cron.work rule queue st).1) =
    Cron.Error (Cron.response st) /\
  Cron.Matched_ (Cron.response (Cron.work rule queue st).1) =
    Cron.Matched_ (Cron.response st).
Proof.
  revert st. induction queue as [|object queue IH]; intros st; cbn; [done|].
  pose proof (Cron_notify_verdict rule object st) as Hfirst.
  destruct (Cron.notify rule object st) as [st1 err].
  specialize (IH st1). destruct (Cron.work rule queue st1) as [st2 errors].
  cbn [fst] in *. destruct Hfirst as (<- & <- & <-). exact IH.
Qed.

Lemma Cron_notifyAll_verdict resource objects st :
  Cron.Status (Cron.response (Cron.notifyAll resource objects st).1) =
    Cron.Status (Cron.response st) /\
  Cron.Error (Cron.response (Cron.notifyAll resource objects st).1) =
    Cron.Error (Cron.response st) /\
  Cron.Matched_ (Cron.response (Cron.notifyAll resource objects st).1) =
    Cron.Matched_ (Cron.response st).
Proof.
  unfold Cron.notifyAll. case_bool_decide; [done|].
  set (st1 := Cron.emit (replicate Cron.Limit EvGo) st).
  change (Cron.world st1) with (Cron.world st).
  pose proof (Cron_work_verdict resource (completion (Cron.world st) objects)
                st1) as Hwork.
  destruct (Cron.work resource (completion (Cron.world st) objects) st1)
    as [st2 errors].
  exact Hwork.
Qed.

End ResponseFacts.

Section LedgerFacts.

Lemma ledgered_app a b : ledgered (a ++ b) = ledgered a ++ ledgered b.
Proof.
  induction a as [|ev a IH]; [done|].
  destruct ev as [| | | | | | |objects [e|]]; cbn; try done.
  by rewrite IH, app_assoc.
Qed.

Lemma ledgered_calls events :
  Forall (fun ev => isAddProcessed ev = false) events -> ledgered events = [].
Proof.
  induction 1 as [|ev events Hev _ IH]; [done|]. by destruct ev.
Qed.

Lemma notified_app a b : notified (a ++ b) = notified a ++ notified b.
Proof.
  induction a as [|ev a IH]; [done|]. destruct ev; cbn; by rewrite ?IH.
Qed.

Lemma notified_replicate n ev :
  (forall o e, ev <> EvNotify o e) -> notified (replicate n ev) = [].
Proof.
  intros Hev. induction n as [|n IH]; [done|]. cbn.
  destruct ev; try done. by destruct (Hev object err).
Qed.

Lemma notified_zip_with (queue : list Object) (errors : list (option error)) :
  length errors = length queue ->
  notified (zip_with EvNotify queue errors) = queue.
Proof.
  revert errors. induction queue as [|o queue IH]; intros [|e errors];
    cbn; try done.
  intros [= Hlen]. by rewrite IH.
Qed.

Lemma receive_Some (errors : list (option error)) e :
  receive errors = Some e -> Some e ∈ errors.
Proof.
  induction errors as [|[e'|] errors IH]; cbn; [done| |].
  - intros [= ->]. by left.
  - intros Hrest. right. by apply IH.
Qed.

Lemma failed_zip_with (queue : list Object) (errors : list (option error)) :
  length errors = length queue ->
  Forall (fun ev => failedNotify ev = false) (zip_with EvNotify queue errors)
  <-> Forall (fun e => e = None) errors.
Proof.
  revert errors. induction queue as [|o queue IH]; intros [|e errors];
    cbn; try done.
  intros [= Hlen]. rewrite !Forall_cons, (IH _ Hlen).
  destruct e; cbn; split; intros [? ?]; by split.
Qed.

Lemma elem_of_zip_with_notify (queue : list Object) errors e :
  length errors = length queue ->
  e ∈ errors -> exists o, o ∈ queue /\ EvNotify o e ∈ zip_with EvNotify queue errors.
Proof.
  revert errors. induction queue as [|o queue IH]; intros [|e' errors];
    cbn; try done.
  - intros _ Hin. by apply elem_of_nil in Hin.
  - intros [= Hlen] [->|Hin]%elem_of_cons.
    + exists o. split; by left.
    + destruct (IH _ Hlen Hin) as (o' & Ho' & Hev).
      exists o'. split; by right.
Qed.

End LedgerFacts.

Section BatchOutcome.

Context {W Meta : Type} `{!Collaborators W} `{!Cron.ProxyService W}.

Implicit Types (st : Cron.State W Meta).

(** X11.  In the service with the worker pool, a failing notification does
    not stop the others of its batch: when [notifyAll] returns, every
    object it was given has been notified exactly once, whatever the order
    in which the workers took them; it returns an error exactly when one of
    these notifications failed, and the error is that of one of them. *)
Theorem notifyAll_notifies_every_object resource objects st :
  (forall (w : W) queue, completion w queue ≡ₚ queue) ->
  exists events,
    Cron.log (Cron.notifyAll resource objects st).1 = Cron.log st ++ events /\
    notified events ≡ₚ objects /\
    ((Cron.notifyAll resource objects st).2 = None <->
     Forall (fun ev => failedNotify ev = false) events) /\
    (forall e,
       (Cron.notifyAll resource objects st).2 = Some e ->
       exists o, o ∈ objects /\ EvNotify o (Some e) ∈ events).
Proof.
  intros Hperm. destruct objects as [|object objects].
  { exists []. cbn. rewrite app_nil_r. split_and!; try done. }
  destruct (Cron_notifyAll_log resource (object :: objects) st)
    as (errors & Hlen & Hresult & Hlog); [done|].
  set (queue := completion (Cron.world st) (object :: objects)) in *.
  exists (replicate Cron.Limit EvGo ++ zip_with EvNotify queue errors ++
          replicate Cron.Limit EvDone).
  split; [exact Hlog|]. rewrite Hresult. split_and!.
  - rewrite !notified_app, !notified_replicate by done.
    rewrite notified_zip_with by done. cbn. rewrite app_nil_r. apply Hperm.
  - rewrite receive_None, !Forall_app, failed_zip_with by done.
    split; [|by intros (_ & ? & _)].
    intros Hall. split_and!; [|done|]; by apply Forall_replicate.
  - intros e He. apply receive_Some in He.
    destruct (elem_of_zip_with_notify queue errors _ Hlen He)
      as (o & Ho & Hev).
    exists o. split; [by rewrite <- (Hperm (Cron.world st))|].
    apply elem_of_app. right. apply elem_of_app. by left.
Qed.

Lemma Cron_processResource_ledger fuel resource st st' processed err :
  Cron.processResource fuel resource st = Some (st', (processed, err)) ->
  ledgered (Cron.log st') =
    ledgered (Cron.log st) ++
    match err with Some _ => [] | None => processed end /\
  Cron.Status (Cron.response st') = Cron.Status (Cron.response st) /\
  Cron.Error (Cron.response st') = Cron.Error (Cron.response st) /\
  Cron.Matched_ (Cron.response st') = Cron.Matched_ (Cron.response st).
Proof.
  unfold Cron.processResource.
  destruct (Cron.getResourceCandidates fuel resource st)
    as [[st1 [objects [e|]]]|] eqn:Hcandidates; [| |done];
    apply Cron_candidates_log in Hcandidates as ->.
  { intros [= <- <- <-]. cbn. by rewrite ledgered_app. }
  set (st1 := Cron.emit [EvPending objects] _).
  assert (ledgered (Cron.log st1) = ledgered (Cron.log st) ++ []) as Hledger1.
  { unfold st1. cbn. by rewrite !ledgered_app, <- !app_assoc. }
  destruct (PendingResources (Cron.world st1) objects) as [pending|e].
  2:{ by intros [= <- <- <-]. }
  case_bool_decide as Hempty.
  { by intros [= <- <- <-]. }
  assert (pending <> []) as Hne by (by destruct pending).
  destruct (Cron_notifyAll_log resource pending st1 Hne)
    as (errors & Hlen & Hresult & Hlog).
  pose proof (Cron_notifyAll_verdict resource pending st1) as Hverdict.
  destruct (Cron.notifyAll resource pending st1) as [st2 result].
  cbn [fst snd] in Hresult, Hlog, Hverdict.
  assert (ledgered (Cron.log st2) = ledgered (Cron.log st) ++ []) as Hledger2.
  { rewrite Hlog, ledgered_app, Hledger1.
    rewrite (ledgered_calls (replicate _ _ ++ _)); [by rewrite !app_nil_r|].
    rewrite !Forall_app. split_and!.
    - by apply Forall_replicate.
    - by apply Forall_zip_with_notify.
    - by apply Forall_replicate. }
  destruct result as [e|].
  { by intros [= <- <- <-]. }
  destruct (AddProcessed (Cron.world st2) pending) as [w [e|]];
    intros [= <- <- <-]; cbn; rewrite ledgered_app, Hledger2; cbn;
    by rewrite ?app_nil_r.
Qed.

End BatchOutcome.

Section TickOutcome.

Context {W Meta : Type}.
Context `{!Collaborators W} `{!Cron.ProxyService W} `{!RuleOps Cron.Rule}.
Context `{!MetaOps Meta}.

Implicit Types (st : Cron.State W Meta).

Lemma Cron_tick_range_report fuel rules st st' err :
  Cron.tick_range fuel rules st = Some (st', err) ->
  Cron.Status (Cron.response st') = Cron.Status (Cron.response st) /\
  Cron.Error (Cron.response st') = Cron.Error (Cron.response st) /\
  exists entries,
    Cron.Matched_ (Cron.response st') =
      Cron.Matched_ (Cron.response st) ++ entries /\
    URL <$> ledgered (Cron.log st') =
      (URL <$> ledgered (Cron.log st)) ++ concat (Cron.URLs <$> entries) /\
    Forall (fun m => Cron.URLs m <> [] /\ Cron.Resource m ∈ rules) entries.
Proof.
  revert st. induction rules as [|resource rules IH]; intros st; cbn.
  - intros [= <- <-]. split_and!; [done..|]. exists [].
    by rewrite !app_nil_r.
  - destruct (Cron.processResource fuel resource st)
      as [[st1 [processed e]]|] eqn:Hrule; [|done].
    apply Cron_processResource_ledger in Hrule
      as (Hledger & Hstatus & Herror & Hmatched).
    destruct e as [e|].
    { intros [= <- <-]. split_and!; [done..|]. exists [].
      by rewrite Hledger, !app_nil_r. }
    intros Hrest. apply IH in Hrest as (Hstatus' & Herror' & entries & Hm & Hl & Hall).
    assert (Forall (fun m => Cron.URLs m <> [] /\ Cron.Resource m ∈ resource :: rules)
              entries) as Hall'.
    { eapply Forall_impl; [exact Hall|]. intros m [? ?]. split; [done|by right]. }
    case_bool_decide as Hsome; cbn in Hstatus', Herror', Hm, Hl.
    + split_and!; [congruence..|].
      exists (Cron.mkMatched resource (URL <$> processed) :: entries).
      split_and!.
      * by rewrite Hm, Hmatched, <- app_assoc.
      * rewrite Hl, Hledger, fmap_app, <- app_assoc. done.
      * constructor; [|done]. split; [|by left].
        destruct processed; [cbn in Hsome; lia|done].
    + split_and!; [congruence..|]. exists entries. split_and!; [congruence| |done].
      rewrite Hl, Hledger.
      destruct processed; [by rewrite app_nil_r|cbn in Hsome; lia].
Qed.

Lemma Cron_tick_reload_quiet st :
  Cron.response (Cron.tick_reload st).1 = Cron.response st /\
  ledgered (Cron.log (Cron.tick_reload st).1) = ledgered (Cron.log st).
Proof.
  unfold Cron.tick_reload.
  destruct (Config.ReloadIfNeeded _ _ _) as [[r h] [changed err]].
  destruct (changed && bool_decide (err = None)); [|done].
  unfold Cron.UpdateSecrets. cbn [Cron.secret Cron.withResources].
  destruct (Cron.secret st); [|done].
  destruct (secret_Init _ _) as [w e]. cbn. split; [done|].
  by rewrite ledgered_app, app_nil_r.
Qed.

(** X12.  The response of [Tick] tells how the tick ended: its status is
    ok and its error empty when [tick] returned no error, whatever the
    notifications did to the response on the way, and its status is error
    with the message of the error otherwise. *)
Theorem Tick_status_reflects_outcome fuel st st' resp :
  Cron.Tick fuel st = Some (st', resp) ->
  exists st1 err,
    Cron.tick fuel (Cron.withResponse Cron.NewResponse st) = Some (st1, err) /\
    resp = Cron.response st' /\
    match err with
    | None => Cron.Status resp = StatusOK /\ Cron.Error resp = ""
    | Some e => Cron.Status resp = StatusError /\ Cron.Error resp = e
    end.
Proof.
  unfold Cron.Tick.
  set (st0 := Cron.withResponse Cron.NewResponse st).
  destruct (Cron.tick fuel st0) as [[st1 err]|] eqn:Htick; [|done].
  unfold Cron.tick in Htick.
  destruct (Cron_tick_reload_quiet st0) as [Hresponse _].
  destruct (Cron.tick_reload st0) as [st2 [e|]]; cbn [fst] in Hresponse.
  { injection Htick as <- <-. intros [= <- <-]. by exists st2, (Some e). }
  apply Cron_tick_range_report in Htick as (Hstatus & Herror & _).
  rewrite Hresponse in Hstatus, Herror.
  destruct err as [e|]; intros [= <- <-].
  - by exists st1, (Some e).
  - exists st1, None. by rewrite Hstatus, Herror.
Qed.

(** X13.  The response of [Tick] lists the objects the ledger took during
    the tick, and no others: the URLs of its matched entries, in order,
    are the URLs of the batches that [AddProcessed] accepted, also when the
    tick ends in an error; and no entry is without a URL. *)
Theorem Tick_reports_ledgered fuel st st' resp :
  Cron.Tick fuel st = Some (st', resp) ->
  URL <$> ledgered (Cron.log st') =
    (URL <$> ledgered (Cron.log st)) ++
    concat (Cron.URLs <$> Cron.Matched_ resp) /\
  Forall (fun m => Cron.URLs m <> []) (Cron.Matched_ resp).
Proof.
  unfold Cron.Tick, Cron.tick.
  set (st0 := Cron.withResponse Cron.NewResponse st).
  destruct (Cron_tick_reload_quiet st0) as [Hresponse Hledger].
  destruct (Cron.tick_reload st0) as [st1 [e|]]; cbn [fst] in Hresponse, Hledger.
  { intros [= <- <-]. cbn. rewrite Hresponse, Hledger. cbn.
    by rewrite app_nil_r. }
  destruct (Cron.tick_range fuel (Cron.rulesOf st1) st1)
    as [[st2 err]|] eqn:Hrange; [|done].
  apply Cron_tick_range_report in Hrange
    as (_ & _ & entries & Hmatched & Hurls & Hall).
  rewrite Hresponse in Hmatched. rewrite Hledger in Hurls. cbn in Hmatched.
  assert (Forall (fun m => Cron.URLs m <> []) entries) as Hsome.
  { eapply Forall_impl; [exact Hall|]. by intros m [? _]. }
  destruct err as [e|]; intros [= <- <-]; cbn; by rewrite Hmatched.
Qed.

End TickOutcome.

(** ** The first cron service: what its tick reports *)

Section LegacyOutcome.

Context {W Meta : Type}.
Context `{!Collaborators W} `{!CronTrigger.TriggerService W Meta}.
Context `{!RuleOps CronTrigger.Rule} `{!MetaOps Meta}.

Implicit Types (st : CronTrigger.State W Meta).

Lemma Trigger_processResource_ledger fuel resource st st' processed err :
  CronTrigger.processResource fuel resource st =
    Some (st', (processed, err)) ->
  ledgered (CronTrigger.log st') =
    ledgered (CronTrigger.log st) ++
    match err with Some _ => [] | None => processed end.
Proof.
  unfold CronTrigger.processResource.
  destruct (CronTrigger.getResourceCandidates fuel resource st)
    as [[st1 [objects [e|]]]|] eqn:Hcandidates; [| |done];
    apply Trigger_candidates_log in Hcandidates as ->.
  { intros [= <- <- <-]. cbn. by rewrite ledgered_app. }
  set (st1 := CronTrigger.emit [EvPending objects] _).
  assert (ledgered (CronTrigger.log st1) = ledgered (CronTrigger.log st) ++ [])
    as Hledger1.
  { unfold st1. cbn. by rewrite !ledgered_app, <- !app_assoc. }
  destruct (PendingResources (CronTrigger.world st1) objects) as [pending|e].
  2:{ by intros [= <- <- <-]. }
  case_bool_decide as Hempty.
  { by intros [= <- <- <-]. }
  unfold CronTrigger.notifyAll. rewrite bool_decide_eq_false_2 by done.
  set (st2 := CronTrigger.emit (replicate (length pending) EvGo) st1).
  change (CronTrigger.world st2) with (CronTrigger.world st1).
  destruct (CronTrigger.work resource
              (completion (CronTrigger.world st1) pending) st2)
    as [[st3 errors]|] eqn:Hwork; [|done].
  destruct (Trigger_work_log _ _ _ _ _ Hwork) as (events & Hlog3 & Hcalls & _).
  assert (ledgered (CronTrigger.log st3) = ledgered (CronTrigger.log st) ++ [])
    as Hledger3.
  { rewrite Hlog3, ledgered_app, (ledgered_calls events Hcalls).
    unfold st2. cbn [CronTrigger.log CronTrigger.emit].
    rewrite ledgered_app, Hledger1, (ledgered_calls (replicate _ _));
      [by rewrite !app_nil_r|].
    by apply Forall_replicate. }
  destruct (receive errors) as [e|].
  { by intros [= <- <- <-]. }
  destruct (AddProcessed (CronTrigger.world st3) pending) as [w [e|]];
    intros [= <- <- <-]; cbn; rewrite ledgered_app, Hledger3; cbn;
    by rewrite ?app_nil_r.
Qed.

Lemma Legacy_tick_range_ledger fuel rules matched st st' matched' err :
  CronLegacy.tick_range fuel rules matched st = Some (st', (matched', err)) ->
  exists more,
    matched' = matched ++ more /\
    ledgered (CronTrigger.log st') = ledgered (CronTrigger.log st) ++ more.
Proof.
  revert matched st. induction rules as [|resource rules IH];
    intros matched st; cbn.
  - intros [= <- <- <-]. exists []. by rewrite !app_nil_r.
  - destruct (CronTrigger.processResource fuel resource st)
      as [[st1 [processed e]]|] eqn:Hrule; [|done].
    apply Trigger_processResource_ledger in Hrule as Hledger.
    destruct e as [e|].
    { intros [= <- <- <-]. exists []. by rewrite Hledger, !app_nil_r. }
    intros Hrest. apply IH in Hrest as (more & -> & Hrest).
    rewrite Hrest, Hledger. case_bool_decide as Hsome.
    + exists (processed ++ more). by rewrite !app_assoc.
    + exists more. destruct processed; [by rewrite app_nil_r|cbn in Hsome; lia].
Qed.

(** X14.  In the first cron service, the objects [tick] returns, and so
    the objects on the line [Tick] prints, are the objects the ledger took
    during the tick, in order; this holds also when the tick ends in an
    error, where the objects of the rules before the failing one are still
    reported. *)
Theorem Legacy_Tick_reports_ledgered fuel logging st st' line err :
  CronLegacy.Tick fuel logging st = Some (st', line, err) ->
  exists matched,
    CronLegacy.tick fuel st = Some (st', (matched, err)) /\
    ledgered (CronTrigger.log st') = ledgered (CronTrigger.log st) ++ matched /\
    line = CronLegacy.reportMatched logging matched err.
Proof.
  unfold CronLegacy.Tick.
  destruct (CronLegacy.tick fuel st) as [[st1 [matched e]]|] eqn:Htick; [|done].
  intros [= <- <- <-]. exists matched. split_and!; [done| |done].
  unfold CronLegacy.tick in Htick.
  destruct (Config.ReloadIfNeeded _ _ _) as [[r h] [changed e']].
  set (st0 := CronTrigger.withConfig _ _ st) in Htick.
  assert (forall st2 e2,
            (if changed && bool_decide (e' = None)
             then CronTrigger.UpdateSecrets st0 else (st0, e')) = (st2, e2) ->
            ledgered (CronTrigger.log st2) = ledgered (CronTrigger.log st))
    as Hquiet.
  { intros st2 e2. destruct (changed && bool_decide (e' = None)).
    - unfold CronTrigger.UpdateSecrets. destruct (CronTrigger.secret st0).
      + destruct (secret_Init _ _) as [w e3]. intros [= <- _]. cbn.
        by rewrite ledgered_app, app_nil_r.
      + by intros [= <- _].
    - by intros [= <- _]. }
  destruct (if changed && bool_decide (e' = None)
            then CronTrigger.UpdateSecrets st0 else (st0, e'))
    as [st2 [e2|]] eqn:Hreload.
  - injection Htick as <- <- <-. rewrite app_nil_r. by eapply Hquiet.
  - apply Legacy_tick_range_ledger in Htick as (more & -> & Hledger).
    rewrite Hledger. by erewrite Hquiet.
Qed.

End LegacyOutcome.

(** ** Start-up of the service with the worker pool *)

Section StartFacts.

Context {W Meta : Type} `{!Collaborators W} `{!CronStart.Setup W Meta}.
Context `{!Cron.ProxyService W} `{!RuleOps Cron.Rule} `{!MetaOps Meta}.

(** X15.  [New] of the service with the worker pool returns no service
    exactly when the first [config.Init] fails, and then with its error.
    Otherwise it returns a service, whatever the source scheme is and also
    when [Init] fails: by then [config.Init] has run a second time, the
    secrets have been initialised at most once after it, and they have
    been initialised when no error is returned. *)
Theorem New_returns_service_unless_config_fails
    (config : Cron.Config Meta) (h : Config.Heap Cron.Rule) (w : W) :
  (forall e,
     (CronStart.Config_Init w config h).2 = Some e ->
     CronStart.New config h w = (None, Some e)) /\
  ((CronStart.Config_Init w config h).2 = None ->
   exists st events,
     (CronStart.New config h w).1 = Some st /\
     Cron.log st = [EvConfigInit; EvConfigInit] ++ events /\
     (events = [] \/ exists resources, events = [EvSecretInit resources]) /\
     ((CronStart.New config h w).2 = None -> events <> [])).
Proof.
  unfold CronStart.New.
  destruct (CronStart.Config_Init w config h) as [[c h1] [e|]]; cbn [snd].
  { split; [by intros ? [= <-]|done]. }
  split; [done|]. intros _.
  set (result := Cron.mkState c true h1 _ _ _).
  unfold CronStart.Init.
  set (st1 := Cron.withWorld _ _).
  assert (Cron.log st1 = [EvConfigInit] /\ Cron.secret st1 = true)
    as [Hlog1 Hsecret1].
  { unfold st1. by case_bool_decide. }
  destruct (CronStart.Config_Init (Cron.world st1) (Cron.config st1)
              (Cron.heap st1)) as [[c2 h2] [e|]].
  { eexists _, []. cbn [fst snd]. split_and!; [done| |by left|done].
    cbn [Cron.log Cron.emit CronStart.withConfig]. by rewrite Hlog1. }
  unfold Cron.UpdateSecrets. cbn [Cron.secret Cron.emit CronStart.withConfig].
  rewrite Hsecret1. destruct (secret_Init _ _) as [w2 e2].
  eexists _, [EvSecretInit _]. cbn [fst snd]. split_and!; [done| | |done].
  - cbn [Cron.log Cron.emit Cron.withWorld CronStart.withConfig].
    by rewrite Hlog1.
  - right. by eexists.
Qed.

End StartFacts.

(** ** Completion actions of a job *)

Section JobFacts.

Context {Action S : Type} `{!Job.ActionOps Action S}.

Implicit Types (st : Job.State Action S) (c : Job.Actions Action).

Lemma Run_range_trace isError actions st st' err :
  Job.Run_range isError actions st = (st', err) ->
  match err with
  | None =>
      Job.trace st' = Job.trace st ++ flat_map (Job.steps isError) actions
  | Some e =>
      exists before action after,
        actions = before ++ action :: after /\
        (Job.trace st' =
           Job.trace st ++ flat_map (Job.steps isError) before ++
           [Job.EvDo action (Some e)] \/
         isError = true /\
         Job.trace st' =
           Job.trace st ++ flat_map (Job.steps isError) before ++
           [Job.EvDo action None; Job.EvWriteError action (Some e)])
  end.
Proof.
  revert st. induction actions as [|action actions IH]; intros st; cbn.
  - intros [= <- <-]. by rewrite app_nil_r.
  - destruct (Job.Do action (Job.world st)) as [s [e|]]; cbn.
    { intros [= <- <-]. exists [], action, actions. split; [done|]. by left. }
    destruct isError; cbn.
    + destruct (Job.WriteError action s) as [s' [e|]]; cbn.
      { intros [= <- <-]. exists [], action, actions. split; [done|].
        right. split; [done|]. cbn. by rewrite <- app_assoc. }
      intros Hrest. apply IH in Hrest. cbn in Hrest. destruct err as [e|].
      * destruct Hrest as (before & failing & after & -> & Htrace).
        exists (action :: before), failing, after. split; [done|].
        cbn. destruct Htrace as [->|[_ ->]]; [left|right; split; [done|]];
          by rewrite <- !app_assoc.
      * rewrite Hrest. by rewrite <- !app_assoc.
    + intros Hrest. apply IH in Hrest. cbn in Hrest. destruct err as [e|].
      * destruct Hrest as (before & failing & after & -> & Htrace).
        exists (action :: before), failing, after. split; [done|].
        cbn. destruct Htrace as [->|[? _]]; [|done]. left.
        by rewrite <- !app_assoc.
      * rewrite Hrest. by rewrite <- !app_assoc.
Qed.

(** X16.  A run that returns no error has gone through one list only, in
    order: when the context carries no error, [Do] of every action of
    [OnSuccess] and nothing else, so no [WriteError] and no action of
    [OnFailure]; when the context carries an error, [Do] and then
    [WriteError] of every action of [OnFailure]. *)
Theorem Run_goes_through_one_list c st st' :
  Job.Run c st = (st', None) ->
  (Job.contextError (Job.world st) = None ->
   Job.trace st' =
     Job.trace st ++ ((fun action => Job.EvDo action None) <$> Job.OnSuccess c)) /\
  (Job.contextError (Job.world st) <> None ->
   Job.trace st' =
     Job.trace st ++
     flat_map
       (fun action => [Job.EvDo action None; Job.EvWriteError action None])
       (Job.OnFailure c)).
Proof.
  unfold Job.Run. intros Hrun. split.
  - intros Hok.
    rewrite !(bool_decide_eq_false_2 (Job.contextError (Job.world st) <> None))
      in Hrun by (intros Hne; by apply Hne).
    case_bool_decide as Hempty.
    + injection Hrun as <-. destruct (Job.OnSuccess c); [|done].
      by rewrite app_nil_r.
    + by apply Run_range_trace in Hrun as ->.
  - intros Hfailed.
    rewrite !(bool_decide_eq_true_2 (Job.contextError (Job.world st) <> None))
      in Hrun by done.
    case_bool_decide as Hempty.
    + injection Hrun as <-. destruct (Job.OnFailure c); [|done].
      by rewrite app_nil_r.
    + by apply Run_range_trace in Hrun as ->.
Qed.

(** X17.  A run that returns an error has stopped at the first action of
    the chosen list whose [Do] failed or, on the failure path, whose
    [WriteError] failed after its [Do] went through: the actions before it
    went through, the error is that of the failing call, and no later
    action was run. *)
Theorem Run_stops_at_first_error c st st' e :
  Job.Run c st = (st', Some e) ->
  let isError := bool_decide (Job.contextError (Job.world st) <> None) in
  let actions := if isError then Job.OnFailure c else Job.OnSuccess c in
  exists before action after,
    actions = before ++ action :: after /\
    (Job.trace st' =
       Job.trace st ++ flat_map (Job.steps isError) before ++
       [Job.EvDo action (Some e)] \/
     isError = true /\
     Job.trace st' =
       Job.trace st ++ flat_map (Job.steps isError) before ++
       [Job.EvDo action None; Job.EvWriteError action (Some e)]).
Proof.
  unfold Job.Run. cbn zeta. case_bool_decide as Hempty; [done|].
  intros Hrun. by apply Run_range_trace in Hrun.
Qed.

End JobFacts.

(** ** The response of a mirroring *)

Section ContractFacts.

Context {Rule StreamOption : Type}.

Implicit Types (r : Contract.Response Rule StreamOption).

Lemma withDestURLs_same r : Contract.withDestURLs (Contract.DestURLs r) r = r.
Proof. by destruct r. Qed.

(** X18.  URLs added to a response one call after the other end up in
    [DestURLs] after those already there, in the order of the calls, and
    nothing else of the response changes; this needs the lock that
    [NewResponse] makes: on a response with a nil lock no URL can be
    added. *)
Theorem AddURLs_appends_in_order r URLs :
  (Contract.mutex r = true ->
   Contract.AddURLs r URLs =
     Some (Contract.withDestURLs (Contract.DestURLs r ++ URLs) r)) /\
  (Contract.mutex r = false -> URLs <> [] -> Contract.AddURLs r URLs = None).
Proof.
  split.
  - revert r. induction URLs as [|URL URLs IH]; intros r Hlock; cbn.
    + by rewrite app_nil_r, withDestURLs_same.
    + unfold Contract.AddURL. rewrite Hlock. rewrite IH by done.
      unfold Contract.withDestURLs. cbn. by rewrite <- app_assoc, Hlock.
  - intros Hnil Hsome. destruct URLs as [|URL URLs]; [done|].
    cbn. unfold Contract.AddURL. by rewrite Hnil.
Qed.

End ContractFacts.

(** ** The tick of the service with the trigger *)

Section TriggerTickOutcome.

Context {W Meta : Type}.
Context `{!Collaborators W} `{!CronTrigger.TriggerService W Meta}.
Context `{!RuleOps CronTrigger.Rule} `{!MetaOps Meta}.

Implicit Types (st : CronTrigger.State W Meta) (response : TriggerTick.Response).

Lemma Trigger_tick_range_report fuel rules response st st' response' err :
  TriggerTick.tick_range fuel rules response st = Some (st', response', err) ->
  TriggerTick.Status response' = TriggerTick.Status response /\
  TriggerTick.Error response' = TriggerTick.Error response /\
  exists entries,
    TriggerTick.Matched_ response' = TriggerTick.Matched_ response ++ entries /\
    URL <$> ledgered (CronTrigger.log st') =
      (URL <$> ledgered (CronTrigger.log st)) ++
      concat (TriggerTick.URLs <$> entries) /\
    Forall (fun m => TriggerTick.URLs m <> []) entries.
Proof.
  revert response st. induction rules as [|resource rules IH];
    intros response st; cbn.
  - intros [= <- <- <-]. split_and!; [done..|]. exists [].
    by rewrite !app_nil_r.
  - destruct (CronTrigger.processResource fuel resource st)
      as [[st1 [processed e]]|] eqn:Hrule; [|done].
    apply Trigger_processResource_ledger in Hrule as Hledger.
    destruct e as [e|].
    { intros [= <- <- <-]. split_and!; [done..|]. exists [].
      by rewrite Hledger, !app_nil_r. }
    intros Hrest.
    apply IH in Hrest as (Hstatus & Herror & entries & Hm & Hl & Hall).
    case_bool_decide as Hsome; cbn in Hstatus, Herror, Hm.
    + split_and!; [done..|].
      exists (TriggerTick.mkMatched resource (URL <$> processed) :: entries).
      split_and!.
      * by rewrite Hm, <- app_assoc.
      * rewrite Hl, Hledger, fmap_app, <- app_assoc. done.
      * constructor; [|done]. destruct processed; [cbn in Hsome; lia|done].
    + split_and!; [done..|]. exists entries. split_and!; [done| |done].
      rewrite Hl, Hledger.
      destruct processed; [by rewrite app_nil_r|cbn in Hsome; lia].
Qed.

(** X19.  In the service with the trigger, the response of [Tick] has
    status ok and an empty error when [tick] returned no error, and status
    error with the message of the error otherwise; in both cases the URLs
    of its matched entries, in order, are the URLs of the batches that
    [AddProcessed] accepted during the tick, and no entry is without a
    URL. *)
Theorem Trigger_Tick_reports_outcome fuel st st' resp :
  TriggerTick.Tick fuel st = Some (st', resp) ->
  (exists response err,
     TriggerTick.tick fuel TriggerTick.NewResponse st =
       Some (st', response, err) /\
     match err with
     | None =>
         TriggerTick.Status resp = StatusOK /\ TriggerTick.Error resp = ""
     | Some e =>
         TriggerTick.Status resp = StatusError /\ TriggerTick.Error resp = e
     end) /\
  URL <$> ledgered (CronTrigger.log st') =
    (URL <$> ledgered (CronTrigger.log st)) ++
    concat (TriggerTick.URLs <$> TriggerTick.Matched_ resp) /\
  Forall (fun m => TriggerTick.URLs m <> []) (TriggerTick.Matched_ resp).
Proof.
  unfold TriggerTick.Tick.
  destruct (TriggerTick.tick fuel TriggerTick.NewResponse st)
    as [[[st1 response] err]|] eqn:Htick; [|done].
  intros Hdone.
  assert (st' = st1 /\
          TriggerTick.Matched_ resp = TriggerTick.Matched_ response /\
          match err with
          | None =>
              TriggerTick.Status resp = TriggerTick.Status response /\
              TriggerTick.Error resp = TriggerTick.Error response
          | Some e =>
              TriggerTick.Status resp = StatusError /\
              TriggerTick.Error resp = e
          end) as (-> & Hmatched & Hverdict).
  { by destruct err; injection Hdone as <- <-. }
  clear Hdone. rewrite Hmatched. pose proof Htick as Hrun.
  unfold TriggerTick.tick in Htick.
  destruct (Config.ReloadIfNeeded _ _ _) as [[r h] [changed e']].
  set (st0 := CronTrigger.withConfig _ _ st) in Htick.
  assert (forall st2 e2,
            (if changed && bool_decide (e' = None)
             then CronTrigger.UpdateSecrets st0 else (st0, e')) = (st2, e2) ->
            ledgered (CronTrigger.log st2) = ledgered (CronTrigger.log st))
    as Hquiet.
  { intros st2 e2. destruct (changed && bool_decide (e' = None)).
    - unfold CronTrigger.UpdateSecrets. destruct (CronTrigger.secret st0).
      + destruct (secret_Init _ _) as [w e3]. intros [= <- _]. cbn.
        by rewrite ledgered_app, app_nil_r.
      + by intros [= <- _].
    - by intros [= <- _]. }
  destruct (if changed && bool_decide (e' = None)
            then CronTrigger.UpdateSecrets st0 else (st0, e'))
    as [st2 [e2|]] eqn:Hreload.
  - injection Htick as <- <- <-. cbn. rewrite app_nil_r.
    split_and!; [|by erewrite Hquiet|constructor].
    by exists TriggerTick.NewResponse, (Some e2).
  - apply Trigger_tick_range_report in Htick
      as (Hstatus & Herror & entries & Hm & Hl & Hall).
    cbn in Hm. rewrite Hm. split_and!; [|by erewrite Hl, Hquiet|done].
    exists response, err. split; [done|].
    destruct err; [done|]. by rewrite (proj1 Hverdict), (proj2 Hverdict).
Qed.

End TriggerTickOutcome.

(** ** A rule with nothing pending *)

Section IdleRule.

Context {W Meta : Type} `{!Collaborators W} `{!Cron.ProxyService W}.
Context `{!CronTrigger.TriggerService W Meta}.

(** X20.  [processResource] returns no object and no error only for a rule
    with nothing pending, and then it has started nothing: no worker, no
    notification and no write to the ledger, only the calls for the
    storage options and for the pending objects; world and response are as
    before.  This holds for the service with the worker pool and for the
    one with the trigger. *)
Theorem idle_rule_starts_nothing :
  (forall fuel resource (st st' : Cron.State W Meta),
     Cron.processResource fuel resource st = Some (st', ([], None)) ->
     exists objects,
       PendingResources (Cron.world st) objects = Ok [] /\
       Cron.log st' =
         Cron.log st ++
         [EvStorageOpts (Cron.Source resource); EvPending objects] /\
       Cron.world st' = Cron.world st /\
       Cron.response st' = Cron.response st) /\
  (forall fuel resource (st st' : CronTrigger.State W Meta),
     CronTrigger.processResource fuel resource st = Some (st', ([], None)) ->
     exists objects,
       PendingResources (CronTrigger.world st) objects = Ok [] /\
       CronTrigger.log st' =
         CronTrigger.log st ++
         [EvStorageOpts (CronTrigger.Resource resource); EvPending objects] /\
       CronTrigger.world st' = CronTrigger.world st).
Proof.
  split.
  - intros fuel resource st st'. unfold Cron.processResource.
    destruct (Cron.getResourceCandidates fuel resource st)
      as [[st1 [objects [e|]]]|] eqn:Hcandidates; [done| |done].
    apply Cron_candidates_log in Hcandidates as ->.
    set (st1 := Cron.emit [EvPending objects] _).
    change (Cron.world st1) with (Cron.world st).
    destruct (PendingResources (Cron.world st) objects) as [pending|e] eqn:Hpending;
      [|done].
    case_bool_decide as Hempty.
    + intros [= <-]. exists objects. destruct pending; [|done].
      split_and!; [done| |done..]. cbn. by rewrite <- app_assoc.
    + destruct (Cron.notifyAll resource pending st1) as [st2 [e|]]; [done|].
      destruct (AddProcessed (Cron.world st2) pending) as [w [e|]]; [done|].
      intros [= _ ->]. done.
  - intros fuel resource st st'. unfold CronTrigger.processResource.
    destruct (CronTrigger.getResourceCandidates fuel resource st)
      as [[st1 [objects [e|]]]|] eqn:Hcandidates; [done| |done].
    apply Trigger_candidates_log in Hcandidates as ->.
    set (st1 := CronTrigger.emit [EvPending objects] _).
    change (CronTrigger.world st1) with (CronTrigger.world st).
    destruct (PendingResources (CronTrigger.world st) objects)
      as [pending|e] eqn:Hpending; [|done].
    case_bool_decide as Hempty.
    + intros [= <-]. exists objects. destruct pending; [|done].
      split_and!; [done| |done]. cbn. by rewrite <- app_assoc.
    + destruct (CronTrigger.notifyAll resource pending st1)
        as [[st2 [e|]]|]; [done| |done].
      destruct (AddProcessed (CronTrigger.world st2) pending) as [w e].
      intros [= _ -> _]. done.
Qed.

End IdleRule.

(** ** Start-up of the service with the trigger *)

Section TriggerStartFacts.

Context {W Meta : Type}.
Context `{!Collaborators W} `{!CronTrigger.TriggerService W Meta}.
Context `{!TriggerStart.Setup W}.

(** X22.  [New] of the service with the trigger, on a configuration that
    initialises but whose source scheme, inferred from the meta URL when
    it is empty, is neither s3 nor mem, returns the unsupported-scheme
    error together with a service, not with nil.  That service has no
    trigger: the configuration has been initialised once only, the
    secrets not at all, and a notification through the service would not
    return. *)
Theorem Trigger_New_unsupported_scheme
    (config : Cron.Config Meta) (h : Config.Heap CronTrigger.Rule) (w : W)
    c h1 :
  CronTrigger.Config_Init w config h = (c, h1, None) ->
  TriggerStart.schemeOf c <> CronTrigger.s3_Scheme ->
  TriggerStart.schemeOf c <> CronTrigger.mem_Scheme ->
  exists st,
    TriggerStart.New config h w =
      (Some st,
       Some ("unsupported source scheme: " +:+ TriggerStart.schemeOf c)) /\
    CronTrigger.dest st = None /\
    CronTrigger.log st = [EvConfigInit] /\
    forall resource object, CronTrigger.notify resource object st = None.
Proof.
  intros Hinit Hs3 Hmem. unfold TriggerStart.New. rewrite Hinit.
  set (result := CronTrigger.mkState c true None h1 _ _).
  unfold CronTrigger.Init.
  set (st1 := if bool_decide _ then _ else result).
  assert (Cron.SourceScheme (CronTrigger.config st1) = TriggerStart.schemeOf c
          /\ CronTrigger.dest st1 = None
          /\ CronTrigger.log st1 = [EvConfigInit]) as (Hscheme & Hdest & Hlog).
  { unfold st1, TriggerStart.schemeOf. cbn. by case_bool_decide. }
  rewrite Hscheme, !bool_decide_eq_false_2 by done.
  exists st1. split_and!; [done..|].
  intros resource object. unfold CronTrigger.notify. by rewrite Hdest.
Qed.

End TriggerStartFacts.

(** ** The errors of one rule *)

Section RuleErrors.

Context {W Meta : Type} `{!Collaborators W} `{!Cron.ProxyService W}.

(** X21.  An error of [processResource] in the service with the worker
    pool names the step that failed.  It is the cause wrapped with the
    message of that step: the search for candidates, where nothing else
    has been called; the reading of the pending objects, where the cause
    is the error of [PendingResources]; the notifications, where the cause
    is the error of one of them and the ledger is not written; or the
    write to the ledger, where the cause is the error of [AddProcessed].
    Only in the last case are objects returned with the error. *)
Theorem processResource_error_names_step
    fuel resource (st st' : Cron.State W Meta) processed e :
  Cron.processResource fuel resource st = Some (st', (processed, Some e)) ->
  exists cause events,
    Cron.log st' = Cron.log st ++ events /\
    ((e = Wrap cause ("failed to get resource candidate " +:+
                      cfg.URL (Cron.Source resource)) /\
      processed = [] /\
      events = [EvStorageOpts (Cron.Source resource)]) \/
     (exists objects,
        e = Wrap cause ("failed to read pending resource " +:+
                        pretty (length objects)) /\
        processed = [] /\
        PendingResources (Cron.world st) objects = Err cause /\
        events = [EvStorageOpts (Cron.Source resource); EvPending objects]) \/
     (e = Wrap cause "failed to notify all" /\
      processed = [] /\
      (exists o, EvNotify o (Some cause) ∈ events) /\
      Forall (fun ev => isAddProcessed ev = false) events) \/
     (e = Wrap cause "failed to update processed" /\
      processed <> [] /\
      exists before,
        events = before ++ [EvAddProcessed processed (Some cause)])).
Proof.
  unfold Cron.processResource.
  destruct (Cron.getResourceCandidates fuel resource st)
    as [[st1 [objects [cause|]]]|] eqn:Hcandidates; [| |done];
    apply Cron_candidates_log in Hcandidates as ->.
  { intros [= <- <- <-]. exists cause, [EvStorageOpts (Cron.Source resource)].
    split; [done|]. by left. }
  set (st1 := Cron.emit [EvPending objects] _).
  set (opening := [EvStorageOpts (Cron.Source resource); EvPending objects]).
  assert (Cron.log st1 = Cron.log st ++ opening) as Hlog1
    by (by unfold st1; cbn; rewrite <- app_assoc).
  change (Cron.world st1) with (Cron.world st).
  destruct (PendingResources (Cron.world st) objects) as [pending|cause]
    eqn:Hpending.
  2:{ intros [= <- <- <-]. exists cause, opening. split; [done|].
      right. left. by exists objects. }
  case_bool_decide as Hempty; [done|].
  assert (pending <> []) as Hne by (by destruct pending).
  destruct (Cron_notifyAll_log resource pending st1 Hne)
    as (errors & Hlen & Hresult & Hlog).
  destruct (Cron.notifyAll resource pending st1) as [st2 result].
  cbn [fst snd] in Hresult, Hlog. subst result.
  set (queue := completion (Cron.world st1) pending) in *.
  set (batch := replicate Cron.Limit EvGo ++ zip_with EvNotify queue errors ++
         replicate Cron.Limit EvDone) in *.
  assert (Cron.log st2 = Cron.log st ++ opening ++ batch) as Hlog2
    by (by rewrite Hlog, Hlog1, <- app_assoc).
  destruct (receive errors) as [cause|] eqn:Hreceive.
  { intros [= <- <- <-]. exists cause, (opening ++ batch). split; [done|].
    do 2 right. left. split_and!; [done..| |].
    - apply receive_Some in Hreceive.
      destruct (elem_of_zip_with_notify queue errors _ Hlen Hreceive)
        as (o & _ & Hev).
      exists o. apply elem_of_app. right. apply elem_of_app. right.
      apply elem_of_app. by left.
    - unfold batch. rewrite !Forall_app. split_and!.
      + by repeat constructor.
      + by apply Forall_replicate.
      + by apply Forall_zip_with_notify.
      + by apply Forall_replicate. }
  destruct (AddProcessed (Cron.world st2) pending) as [w [cause|]]; [|done].
  intros [= <- <- <-]. exists cause, ((opening ++ batch) ++
    [EvAddProcessed pending (Some cause)]).
  split; [by cbn [Cron.log Cron.emit Cron.withWorld];
          rewrite Hlog2, <- !app_assoc|].
  do 3 right. split_and!; [done..|]. by eexists.
Qed.

End RuleErrors.

(** ** The further properties at concrete inputs *)

Module MoreExamples.

Import Fixtures.

(** A reload of the seeded rule set from a store with another rule file. *)
Lemma load_witness :
  exists more,
    ["seed@project"; "rule-a@project"; "rule-b"] = seeded.2 ++ more /\
    Config.Rules (Config.withRules [0; 2]%nat seeded.1) =
      Config.initialRules seeded.1 ++ seq (length seeded.2) (length more) /\
    Config.initialRules (Config.withRules [0; 2]%nat seeded.1) =
      Config.initialRules seeded.1 /\
    Config.BaseURL (Config.withRules [0; 2]%nat seeded.1) =
      Config.BaseURL seeded.1 /\
    Config.projectID (Config.withRules [0; 2]%nat seeded.1) =
      Config.projectID seeded.1.
Proof.
  apply (load_keeps_seed (rulesStore "rule-b") seeded.1 seeded.2
           (Config.withRules [0; 2]%nat seeded.1)
           ["seed@project"; "rule-a@project"; "rule-b"] None);
    [discriminate|vm_compute; reflexivity].
Defined.

(** The seed rule, initialised by [Init], is initialised again by the
    reload. *)
Lemma reseed_witness :
  (Config.loadAndInit (rulesStore "rule-b") seeded.1 seeded.2).1.2 !! 0%nat =
    Some "seed@project@project".
Proof.
  destruct (reload_initialises_seed_again (rulesStore "rule-b") seeded.1
              seeded.2 (Config.withRules [0; 2]%nat seeded.1)
              ["seed@project@project"; "rule-a@project"; "rule-b@project"])
    as (decoded & _ & _ & Hseed & _).
  - discriminate.
  - apply NoDup_singleton.
  - repeat constructor.
  - vm_compute. reflexivity.
  - exact (Hseed 0%nat "seed@project" ltac:(by left) eq_refl).
Defined.

Lemma Init_witness :
  Config.projectID seeded.1 = "project" /\
  (Config.inited configured = 0 ->
   Config.initialRules seeded.1 = Config.Rules configured /\
   Config.inited seeded.1 = 1) /\
  (Config.inited configured <> 0 ->
   Config.initialRules seeded.1 = Config.initialRules configured /\
   Config.inited seeded.1 = Config.inited configured).
Proof.
  apply (Init_fixes_seed_once (rulesStore "rule-a") "project" configured
           ["seed"] seeded.1 seeded.2 None).
  vm_compute. reflexivity.
Defined.

Lemma files_witness :
  match Cron.getResourceCandidates 3 onlySub (cronState [onlySub] calm) with
  | Some (_, (objects, _)) =>
      Forall
        (fun o =>
           IsDir o = false /\
           Cron.matched (cfg.Basic_ (Cron.Source onlySub)) o = true)
        objects /\
      objects = [deepFile]
  | None => False
  end /\
  match
    CronTrigger.getResourceCandidates 3 triggered (triggerState "mem" calm)
  with
  | Some (_, (objects, _)) =>
      Forall (fun o => IsDir o = false) objects /\
      objects = [oldFile; deepFile; newFile]
  | None => False
  end.
Proof.
  split.
  - destruct (Cron.getResourceCandidates 3 onlySub (cronState [onlySub] calm))
      as [[st' [objects err]]|] eqn:Hrun; [|vm_compute in Hrun; discriminate].
    split.
    + exact (proj1 (candidates_are_files (W:=World) (Meta:=nat)) 3%nat onlySub
               (cronState [onlySub] calm) st' objects err Hrun).
    + vm_compute in Hrun. by injection Hrun as _ <- _.
  - destruct (CronTrigger.getResourceCandidates 3 triggered
                (triggerState "mem" calm))
      as [[st' [objects err]]|] eqn:Hrun; [|vm_compute in Hrun; discriminate].
    split.
    + exact (proj2 (candidates_are_files (W:=World) (Meta:=nat)) _ 3%nat
               triggered (triggerState "mem" calm) st' objects err Hrun).
    + vm_compute in Hrun. by injection Hrun as _ <- _.
Defined.

(** A walk over the source adds to what was gathered; a walk whose
    listing fails keeps it and returns the error of that listing. *)
Lemma appends_witness :
  ([deepFile] `prefix_of` [deepFile; deepFile] /\
   forall e, None = Some e -> exists URL', List sourceStore URL' [] = Err e) /\
  ([oldFile] `prefix_of` [oldFile] /\
   forall e,
     Some "not found: mem://gone" = Some e ->
     exists URL', List sourceStore URL' [] = Err e).
Proof.
  split.
  - apply (proj1 (appendResources_only_appends (W:=World) sourceStore [] 2
                    "mem://src" [deepFile] [deepFile; deepFile] None)
             (cfg.Basic_ (Cron.Source onlySub))).
    reflexivity.
  - apply (proj2 (appendResources_only_appends (W:=World) sourceStore [] 2
                    "mem://gone" [oldFile] [oldFile]
                    (Some "not found: mem://gone"))).
    reflexivity.
Defined.

(** A batch of two where the notification for [newFile] fails: both
    objects are notified, and the error is returned. *)
Lemma batch_witness :
  exists events,
    Cron.log
      (Cron.notifyAll everything [deepFile; newFile]
         (cronState [everything] flaky)).1 =
      Cron.log (cronState [everything] flaky) ++ events /\
    notified events ≡ₚ [deepFile; newFile] /\
    ((Cron.notifyAll everything [deepFile; newFile]
        (cronState [everything] flaky)).2 = None <->
     Forall (fun ev => failedNotify ev = false) events) /\
    (forall e,
       (Cron.notifyAll everything [deepFile; newFile]
          (cronState [everything] flaky)).2 = Some e ->
       exists o, o ∈ [deepFile; newFile] /\ EvNotify o (Some e) ∈ events).
Proof.
  apply (notifyAll_notifies_every_object (W:=World) (Meta:=nat)).
  intros w queue. exact (reverse_Permutation queue).
Defined.

Lemma status_witness :
  match Cron.Tick 3 (cronState [everything; onlySub] calm) with
  | Some (st', resp) =>
      exists st1 err,
        Cron.tick 3
          (Cron.withResponse Cron.NewResponse
             (cronState [everything; onlySub] calm)) = Some (st1, err) /\
        resp = Cron.response st' /\
        match err with
        | None => Cron.Status resp = StatusOK /\ Cron.Error resp = ""
        | Some e => Cron.Status resp = StatusError /\ Cron.Error resp = e
        end
  | None => False
  end.
Proof.
  destruct (Cron.Tick 3 (cronState [everything; onlySub] calm))
    as [[st' resp]|] eqn:Hrun; [|vm_compute in Hrun; discriminate].
  exact (Tick_status_reflects_outcome 3 _ st' resp Hrun).
Defined.

Lemma matched_witness :
  match Cron.Tick 3 (cronState [everything; onlySub] calm) with
  | Some (st', resp) =>
      (URL <$> ledgered (Cron.log st') =
         (URL <$> ledgered (Cron.log (cronState [everything; onlySub] calm)))
         ++ concat (Cron.URLs <$> Cron.Matched_ resp) /\
       Forall (fun m => Cron.URLs m <> []) (Cron.Matched_ resp)) /\
      concat (Cron.URLs <$> Cron.Matched_ resp) =
        ["mem://src/sub/deep.log"; "mem://src/new.txt"]
  | None => False
  end.
Proof.
  destruct (Cron.Tick 3 (cronState [everything; onlySub] calm))
    as [[st' resp]|] eqn:Hrun; [|vm_compute in Hrun; discriminate].
  split; [exact (Tick_reports_ledgered 3 _ st' resp Hrun)|].
  vm_compute in Hrun. by injection Hrun as _ <-.
Defined.

Lemma legacy_witness :
  match CronLegacy.Tick 3 true (triggerState "mem" calm) with
  | Some (st', line, err) =>
      exists matched,
        CronLegacy.tick 3 (triggerState "mem" calm) =
          Some (st', (matched, err)) /\
        ledgered (CronTrigger.log st') =
          ledgered (CronTrigger.log (triggerState "mem" calm)) ++ matched /\
        line = CronLegacy.reportMatched true matched err
  | None => False
  end.
Proof.
  destruct (CronLegacy.Tick 3 true (triggerState "mem" calm))
    as [[[st' line] err]|] eqn:Hrun; [|vm_compute in Hrun; discriminate].
  exact (Legacy_Tick_reports_ledgered 3 true _ st' line err Hrun).
Defined.

(** A start-up with no source scheme gives a service; one whose
    configuration does not initialise gives none. *)
Lemma New_witness :
  CronStart.New (Cron.mkConfig "" "" 50 (inlineRules 1)) [everything] calm =
    (None, Some "meta URL is empty") /\
  exists st events,
    (CronStart.New schemeless [everything] calm).1 = Some st /\
    Cron.log st = [EvConfigInit; EvConfigInit] ++ events /\
    (events = [] \/ exists resources, events = [EvSecretInit resources]) /\
    ((CronStart.New schemeless [everything] calm).2 = None -> events <> []).
Proof.
  split.
  - apply (proj1 (New_returns_service_unless_config_fails
                    (Cron.mkConfig "" "" 50 (inlineRules 1)) [everything] calm)).
    reflexivity.
  - apply (proj2 (New_returns_service_unless_config_fails schemeless
                    [everything] calm)).
    reflexivity.
Defined.

Lemma Run_witness :
  Job.trace (Job.Run jobActions (Job.mkState (None, []) [])).1 =
    [] ++ [Job.EvDo "move" None; Job.EvDo "notify" None] /\
  Job.trace (Job.Run jobActions (Job.mkState (Some "boom", []) [])).1 =
    [] ++
    [Job.EvDo "quarantine" None; Job.EvWriteError "quarantine" None;
     Job.EvDo "alert" None; Job.EvWriteError "alert" None].
Proof.
  split.
  - assert (Job.Run jobActions (Job.mkState (None, []) []) =
            ((Job.Run jobActions (Job.mkState (None, []) [])).1, None))
      as Hrun by (vm_compute; reflexivity).
    apply (proj1 (Run_goes_through_one_list _ _ _ Hrun)). reflexivity.
  - assert (Job.Run jobActions (Job.mkState (Some "boom", []) []) =
            ((Job.Run jobActions (Job.mkState (Some "boom", []) [])).1, None))
      as Hrun by (vm_compute; reflexivity).
    apply (proj2 (Run_goes_through_one_list _ _ _ Hrun)). discriminate.
Defined.

(** On the failure path with a failing second action, the run stops
    there. *)
Lemma Run_error_witness :
  exists before action after,
    ["quarantine"; "alert"] = before ++ action :: after /\
    (Job.trace
       (Job.Run jobActions (Job.mkState (Some "boom", ["alert"]) [])).1 =
       [] ++ flat_map (Job.steps true) before ++
       [Job.EvDo action (Some "cannot alert")] \/
     true = true /\
     Job.trace
       (Job.Run jobActions (Job.mkState (Some "boom", ["alert"]) [])).1 =
       [] ++ flat_map (Job.steps true) before ++
       [Job.EvDo action None; Job.EvWriteError action (Some "cannot alert")]).
Proof.
  assert (Job.Run jobActions (Job.mkState (Some "boom", ["alert"]) []) =
          ((Job.Run jobActions (Job.mkState (Some "boom", ["alert"]) [])).1,
           Some "cannot alert")) as Hrun by (vm_compute; reflexivity).
  exact (Run_stops_at_first_error _ _ _ _ Hrun).
Defined.

Lemma AddURLs_witness :
  Contract.AddURLs
    (Contract.NewResponse (Rule:=unit) (StreamOption:=unit) 7 "gs://in/a.txt")
    ["mem://dst/a"; "mem://dst/b"] =
    Some
      (Contract.withDestURLs
         (Contract.DestURLs
            (Contract.NewResponse (Rule:=unit) (StreamOption:=unit) 7
               "gs://in/a.txt") ++ ["mem://dst/a"; "mem://dst/b"])
         (Contract.NewResponse 7 "gs://in/a.txt")) /\
  Contract.AddURLs
    (Contract.mkResponse (Rule:=unit) (StreamOption:=unit) "" 0 [] [] 0 None 0
       "" "" "" "" 0 ∅ false None false) ["mem://dst/a"] = None.
Proof.
  split.
  - apply (proj1 (AddURLs_appends_in_order _ _)). reflexivity.
  - apply (proj2 (AddURLs_appends_in_order _ _)); [reflexivity|discriminate].
Defined.

Lemma trigger_tick_witness :
  match TriggerTick.Tick 3 (triggerState "mem" flaky) with
  | Some (st', resp) =>
      (exists response err,
         TriggerTick.tick 3 TriggerTick.NewResponse (triggerState "mem" flaky) =
           Some (st', response, err) /\
         match err with
         | None =>
             TriggerTick.Status resp = StatusOK /\ TriggerTick.Error resp = ""
         | Some e =>
             TriggerTick.Status resp = StatusError /\
             TriggerTick.Error resp = e
         end) /\
      URL <$> ledgered (CronTrigger.log st') =
        (URL <$> ledgered (CronTrigger.log (triggerState "mem" flaky))) ++
        concat (TriggerTick.URLs <$> TriggerTick.Matched_ resp) /\
      Forall (fun m => TriggerTick.URLs m <> []) (TriggerTick.Matched_ resp)
  | None => False
  end.
Proof.
  destruct (TriggerTick.Tick 3 (triggerState "mem" flaky))
    as [[st' resp]|] eqn:Hrun; [|vm_compute in Hrun; discriminate].
  exact (Trigger_Tick_reports_outcome 3 _ st' resp Hrun).
Defined.

(** With every file of the source in the ledger already, the rule is
    idle. *)
Lemma idle_witness :
  match Cron.processResource 3 everything (cronState [everything] settled) with
  | Some (st', ([], None)) =>
      exists objects,
        PendingResources (Cron.world (cronState [everything] settled)) objects
          = Ok [] /\
        Cron.log st' =
          Cron.log (cronState [everything] settled) ++
          [EvStorageOpts (Cron.Source everything); EvPending objects] /\
        Cron.world st' = Cron.world (cronState [everything] settled) /\
        Cron.response st' = Cron.response (cronState [everything] settled)
  | _ => False
  end.
Proof.
  destruct (Cron.processResource 3 everything (cronState [everything] settled))
    as [[st' [[|object processed] [e|]]]|] eqn:Hrun;
    try (vm_compute in Hrun; discriminate).
  exact (proj1 (idle_rule_starts_nothing (W:=World) (Meta:=nat)) 3%nat
           everything _ st' Hrun).
Defined.

(** A rule whose batch holds a failing notification. *)
Lemma error_step_witness :
  match Cron.processResource 3 everything (cronState [everything] flaky) with
  | Some (st', (processed, Some e)) =>
      (exists cause events,
         Cron.log st' = Cron.log (cronState [everything] flaky) ++ events /\
         ((e = Wrap cause ("failed to get resource candidate " +:+
                           cfg.URL (Cron.Source everything)) /\
           processed = [] /\
           events = [EvStorageOpts (Cron.Source everything)]) \/
          (exists objects,
             e = Wrap cause ("failed to read pending resource " +:+
                             pretty (length objects)) /\
             processed = [] /\
             PendingResources (Cron.world (cronState [everything] flaky))
               objects = Err cause /\
             events =
               [EvStorageOpts (Cron.Source everything); EvPending objects]) \/
          (e = Wrap cause "failed to notify all" /\
           processed = [] /\
           (exists o, EvNotify o (Some cause) ∈ events) /\
           Forall (fun ev => isAddProcessed ev = false) events) \/
          (e = Wrap cause "failed to update processed" /\
           processed <> [] /\
           exists before,
             events = before ++ [EvAddProcessed processed (Some cause)]))) /\
      e = "failed to notify all: denied mem://src/new.txt"
  | _ => False
  end.
Proof.
  destruct (Cron.processResource 3 everything (cronState [everything] flaky))
    as [[st' [processed [e|]]]|] eqn:Hrun;
    try (vm_compute in Hrun; discriminate).
  split.
  - exact (processResource_error_names_step 3 everything _ st' processed e
             Hrun).
  - vm_compute in Hrun. by injection Hrun as _ _ <-.
Defined.

(** A configuration for a source on gs. *)
Lemma unsupported_witness :
  exists st,
    TriggerStart.New (Cron.mkConfig "" "gs://meta" 50 (inlineRules 1))
      [triggered] calm =
      (Some st,
       Some ("unsupported source scheme: " +:+
             TriggerStart.schemeOf
               (Cron.mkConfig "" "gs://meta" 50 (inlineRules 1)))) /\
    CronTrigger.dest st = None /\
    CronTrigger.log st = [EvConfigInit] /\
    forall resource object, CronTrigger.notify resource object st = None.
Proof.
  apply (Trigger_New_unsupported_scheme
           (Cron.mkConfig "" "gs://meta" 50 (inlineRules 1)) [triggered] calm
           (Cron.mkConfig "" "gs://meta" 50 (inlineRules 1)) [triggered]);
    [reflexivity|vm_compute; discriminate..].
Defined.

End MoreExamples.
